(** * Tic-Tac-Toe: board state and minimax move search

    A shallow embedding of [VITyarthi/tic_tac_toe.py].

    The Python program keeps one mutable [Board] object whose [grid] is a
    list of three lists of one-character strings; the search of [AIPlayer]
    writes hypothetical moves into that grid and erases them afterwards.
    The embedding threads the board through every method as explicit state
    and keeps Python's exceptions as results, so that the theorems can speak
    about what is left in the grid when a method returns.  Console output
    ([print], [Board.display]) and the statistics file are not modelled. *)

From Stdlib Require Import ZArith String List Bool Lia.
Import ListNotations.
Open Scope string_scope.
Open Scope Z_scope.

(** ** Results and the board monad *)

(** The exceptions the modelled methods can raise.  [RecursionError] is what
    Python raises when the interpreter's recursion limit is hit; here it is
    what a recursive method returns when its call budget is used up.
    [LoopBudget] is not a Python exception: it marks a [while True] loop
    that the model stopped after its budget of iterations. *)
Inductive Exn : Type :=
| IndexError
| TypeError
| RecursionError
| LoopBudget.

Inductive Result (A : Type) : Type :=
| Ok (a : A)
| Raise (e : Exn).
Arguments Ok {A} a.
Arguments Raise {A} e.

(** class Board: the two attributes set by [__init__]. *)
Record Board : Type := mkBoard {
  grid : list (list string);
  size : Z
}.

(** A method running against the shared board: it either raises or returns
    a value together with the board it leaves behind. *)
Definition M (A : Type) : Type := Board -> Result (A * Board).

Definition ret {A} (a : A) : M A := fun b => Ok (a, b).

Definition bind {A B} (m : M A) (k : A -> M B) : M B :=
  fun b => match m b with
           | Ok (a, b') => k a b'
           | Raise e => Raise e
           end.

Definition raise {A} (e : Exn) : M A := fun _ => Raise e.

Definition lift {A} (r : Result A) : M A :=
  fun b => match r with Ok a => Ok (a, b) | Raise e => Raise e end.

Definition get_grid : M (list (list string)) := fun b => Ok (grid b, b).

Definition put_grid (g : list (list string)) : M unit :=
  fun b => Ok (tt, mkBoard g (size b)).

Notation "x <- m ;; k" := (bind m (fun x => k))
  (at level 61, m at next level, right associativity).
Notation "m ;;; k" := (bind m (fun _ => k))
  (at level 61, right associativity).

(** ** Python lists *)

(** [l[i]] for a Python list: a negative index counts from the end, an index
    outside [-len, len) raises IndexError. *)
Definition norm_index {A} (l : list A) (i : Z) : option nat :=
  let n := Z.of_nat (length l) in
  if (0 <=? i) && (i <? n) then Some (Z.to_nat i)
  else if (i <? 0) && (- n <=? i) then Some (Z.to_nat (n + i))
  else None.

Definition index {A} (l : list A) (i : Z) : Result A :=
  match norm_index l i with
  | Some k => match nth_error l k with
              | Some x => Ok x
              | None => Raise IndexError
              end
  | None => Raise IndexError
  end.

Fixpoint replace_nth {A} (l : list A) (k : nat) (v : A) : list A :=
  match l, k with
  | [], _ => []
  | _ :: t, O => v :: t
  | h :: t, S k' => h :: replace_nth t k' v
  end.

(** [l[i] = v] *)
Definition store {A} (l : list A) (i : Z) (v : A) : Result (list A) :=
  match norm_index l i with
  | Some k => Ok (replace_nth l k v)
  | None => Raise IndexError
  end.

(** [board.grid[i][j]] *)
Definition get_cell (i j : Z) : M string :=
  g <- get_grid ;;
  row <- lift (index g i) ;;
  lift (index row j).

(** [board.grid[i][j] = v] *)
Definition set_cell (i j : Z) (v : string) : M unit :=
  g <- get_grid ;;
  row <- lift (index g i) ;;
  row' <- lift (store row j v) ;;
  g' <- lift (store g i row') ;;
  put_grid g'.

(** ** Loops *)

(** [for x in l: acc = body(x, acc)]: a loop whose local variables are [acc]. *)
Fixpoint for_each {A St} (l : list A) (body : A -> St -> M St) (acc : St)
  : M St :=
  match l with
  | [] => ret acc
  | x :: l' => acc' <- body x acc ;; for_each l' body acc'
  end.

(** [for x in l: if ...: return r]: a loop left by the first [return];
    [None] means the loop ran to its end. *)
Fixpoint for_return {A R} (l : list A) (body : A -> M (option R))
  : M (option R) :=
  match l with
  | [] => ret None
  | x :: l' =>
      r <- body x ;;
      match r with
      | Some v => ret (Some v)
      | None => for_return l' body
      end
  end.

(** [range(3)] *)
Definition range3 : list Z := [0; 1; 2].

(** ** class Board *)

Definition empty_grid : list (list string) :=
  [[" "; " "; " "]; [" "; " "; " "]; [" "; " "; " "]].

(** [Board.__init__] *)
Definition new_board : Board := mkBoard empty_grid 3.

(** [Board.is_valid_move]: the two range tests come first and short-circuit,
    so the grid is only indexed with coordinates in [0,3). *)
Definition is_valid_move (row col : Z) : M bool :=
  if (0 <=? row) && (row <? 3) && ((0 <=? col) && (col <? 3)) then
    c <- get_cell row col ;;
    ret (c =? " ")%string
  else ret false.

(** [Board.make_move] *)
Definition make_move (row col : Z) (symbol : string) : M bool :=
  v <- is_valid_move row col ;;
  if v then set_cell row col symbol ;;; ret true
  else ret false.

(** [Board.is_full] *)
Definition is_full : M bool :=
  g <- get_grid ;;
  ret (forallb (fun row => forallb (fun cell => negb (cell =? " ")%string) row) g).

(** [Board.reset] *)
Definition reset : M unit := put_grid empty_grid.

(** ** class GameLogic *)

(** The chained comparison [a == b == c != ' ']: the operands are evaluated
    left to right and [c] only when [a == b]. *)
Definition three_equal (ea eb ec : M string) : M bool :=
  a <- ea ;;
  b <- eb ;;
  if (a =? b)%string then
    c <- ec ;;
    ret ((b =? c)%string && negb (c =? " ")%string)
  else ret false.

(** [GameLogic.check_winner]: rows, then columns, then the two diagonals. *)
Definition check_winner : M (option string) :=
  g <- get_grid ;;
  r <- for_return g (fun row =>
         t <- three_equal (lift (index row 0)) (lift (index row 1))
                          (lift (index row 2)) ;;
         if t then w <- lift (index row 0) ;; ret (Some w) else ret None) ;;
  match r with
  | Some w => ret (Some w)
  | None =>
    r <- for_return range3 (fun col =>
           t <- three_equal (get_cell 0 col) (get_cell 1 col) (get_cell 2 col) ;;
           if t then w <- get_cell 0 col ;; ret (Some w) else ret None) ;;
    match r with
    | Some w => ret (Some w)
    | None =>
      d1 <- three_equal (get_cell 0 0) (get_cell 1 1) (get_cell 2 2) ;;
      if d1 then w <- get_cell 0 0 ;; ret (Some w)
      else
        d2 <- three_equal (get_cell 0 2) (get_cell 1 1) (get_cell 2 0) ;;
        if d2 then w <- get_cell 0 2 ;; ret (Some w)
        else ret None
    end
  end.

(** Truth value of an [Optional[str]] in a Python condition: [None] and the
    empty string are false. *)
Definition truthy (w : option string) : bool :=
  match w with
  | Some s => negb (s =? "")%string
  | None => false
  end.

(** [GameLogic.is_game_over] *)
Definition is_game_over : M (bool * option string) :=
  winner <- check_winner ;;
  if truthy winner then ret (true, winner)
  else
    full <- is_full ;;
    if full then ret (true, Some "Draw")
    else ret (false, None).

(** ** class AIPlayer *)

(** The values the search compares: Python ints and the two floats
    [float('-inf')] and [float('inf')] that initialise the running best. *)
Inductive Score : Type :=
| NegInf
| Int (z : Z)
| PosInf.

(** [a > b] *)
Definition score_gt (a b : Score) : bool :=
  match a, b with
  | NegInf, _ => false
  | Int _, NegInf => true
  | Int x, Int y => y <? x
  | Int _, PosInf => false
  | PosInf, PosInf => false
  | PosInf, _ => true
  end.

(** [max(a, b)] and [min(a, b)]: Python keeps the first argument unless the
    second is strictly better. *)
Definition py_max (a b : Score) : Score := if score_gt b a then b else a.
Definition py_min (a b : Score) : Score := if score_gt a b then b else a.

(** [winner == self.symbol] for [winner : Optional[str]] *)
Definition is_symbol (winner : option string) (symbol : string) : bool :=
  match winner with
  | Some w => (w =? symbol)%string
  | None => false
  end.

(** ['O' if self.symbol == 'X' else 'X'] *)
Definition opponent_of (symbol : string) : string :=
  if (symbol =? "X")%string then "O" else "X".

(** [AIPlayer._minimax]; [fuel] bounds the nesting of recursive calls. *)
Fixpoint _minimax (fuel : nat) (symbol : string) (depth : Z) (is_max : bool)
  : M Score :=
  match fuel with
  | O => raise RecursionError
  | S fuel' =>
    winner <- check_winner ;;
    if is_symbol winner symbol then ret (Int (10 - depth))
    else if truthy winner then ret (Int (depth - 10))
    else
      full <- is_full ;;
      if full then ret (Int 0)
      else if is_max then
        let opponent := opponent_of symbol in
        for_each range3 (fun i best =>
          for_each range3 (fun j best =>
            c <- get_cell i j ;;
            if (c =? " ")%string then
              set_cell i j symbol ;;;
              v <- _minimax fuel' symbol (depth + 1) false ;;
              let best := py_max best v in
              set_cell i j " " ;;;
              ret best
            else ret best) best) NegInf
      else
        let opponent := opponent_of symbol in
        for_each range3 (fun i best =>
          for_each range3 (fun j best =>
            c <- get_cell i j ;;
            if (c =? " ")%string then
              set_cell i j opponent ;;;
              v <- _minimax fuel' symbol (depth + 1) true ;;
              let best := py_min best v in
              set_cell i j " " ;;;
              ret best
            else ret best) best) PosInf
  end.

(** [AIPlayer.get_move]; the loop's local variables are
    [(best_score, best_move)]. *)
Definition get_move (fuel : nat) (symbol : string) : M (option (Z * Z)) :=
  r <- for_each range3 (fun i st =>
         for_each range3 (fun j st =>
           c <- get_cell i j ;;
           if (c =? " ")%string then
             set_cell i j symbol ;;;
             score <- _minimax fuel symbol 0 false ;;
             set_cell i j " " ;;;
             if score_gt score (fst st) then ret (score, Some (i, j))
             else ret st
           else ret st) st) (NegInf, None) ;;
  ret (snd r).

(** ** class Player and class GameController *)

(** A player as the controller sees it: its symbol and its [get_move]. *)
Record Player : Type := mkPlayer {
  p_symbol : string;
  p_get_move : M (option (Z * Z))
}.

Definition AIPlayer (fuel : nat) (symbol : string) : Player :=
  mkPlayer symbol (get_move fuel symbol).

(** [GameController.play_turn]: unpacking [None] into [row, col] raises
    TypeError. *)
Definition play_turn (current : Player) : M bool :=
  mv <- p_get_move current ;;
  match mv with
  | None => raise TypeError
  | Some (row, col) => make_move row col (p_symbol current)
  end.

(** The [while True] loop of [GameController.play_game]; [first] tells
    whether [current_player] is [player1].  It returns the [result] handed
    to the statistics; the players' win counters and the statistics
    themselves are left out. *)
Fixpoint game_loop (turns : nat) (player1 player2 : Player) (first : bool)
  : M (option string) :=
  match turns with
  | O => raise LoopBudget
  | S turns' =>
    let current := if first then player1 else player2 in
    moved <- play_turn current ;;
    if moved then
      over <- is_game_over ;;
      if fst over then ret (snd over)
      else game_loop turns' player1 player2 (negb first)
    else game_loop turns' player1 player2 first
  end.

(** [GameController.play_game] *)
Definition play_game (turns : nat) (player1 player2 : Player)
  : M (option string) :=
  reset ;;;
  game_loop turns player1 player2 true.

(** ** Vocabulary of the statements *)

(** The shape [Board.__init__] and [Board.reset] give the grid; no method
    changes it. *)
Definition is_3x3 (b : Board) : bool :=
  (length (grid b) =? 3)%nat &&
  forallb (fun row => (length row =? 3)%nat) (grid b).

(** Row-major scan order of the two nested [range(3)] loops. *)
Definition cells : list (Z * Z) := list_prod range3 range3.

(** Number of blank cells. *)
Definition empties (b : Board) : nat :=
  list_sum (map (fun c => Nat.b2n (c =? " ")%string) (concat (grid b))).

(** Calls the search can nest before every path has reached a full board:
    each ply of the opponent fills a cell, and so does each ply of the
    searching side unless its symbol is the blank itself. *)
Definition search_budget (is_max : bool) (b : Board) : nat :=
  2 * empties b + (if is_max then 1 else 0).

(** [preserves m]: whenever [m] returns, the board is the one it started
    with. *)
Definition preserves {A} (m : M A) : Prop :=
  forall b r b', m b = Ok (r, b') -> b' = b.

(** [returns_on b m]: run on [b], the method returns a value and leaves [b]. *)
Definition returns_on {A} (b : Board) (m : M A) : Prop :=
  exists a, m b = Ok (a, b).

(** [move_scores fuel symbol b i j z]: with [symbol] written into cell
    [(i, j)] of [b], the search started by [get_move] returns the int [z]. *)
Definition move_scores (fuel : nat) (symbol : string) (b : Board)
           (i j : Z) (z : Z) : Prop :=
  exists b1, (set_cell i j symbol ;;; _minimax fuel symbol 0 false) b
             = Ok (Int z, b1).

(** Row-major scan order on coordinates. *)
Definition scanned_before (i' j' i j : Z) : Prop :=
  i' < i \/ (i' = i /\ j' < j).

(** [a == b == c != ' '] on values. *)
Definition line3 (a b c : string) : bool :=
  (a =? b)%string && ((b =? c)%string && negb (c =? " ")%string).

(** First cell of the first complete line in a list of lines. *)
Fixpoint first_line (lines : list (string * string * string))
  : option string :=
  match lines with
  | [] => None
  | (a, b, c) :: rest => if line3 a b c then Some a else first_line rest
  end.

(** The eight lines in the order [check_winner] tests them. *)
Definition lines_of (c00 c01 c02 c10 c11 c12 c20 c21 c22 : string)
  : list (string * string * string) :=
  [ (c00, c01, c02); (c10, c11, c12); (c20, c21, c22);
    (c00, c10, c20); (c01, c11, c21); (c02, c12, c22);
    (c00, c11, c22); (c02, c11, c20) ].

(** Every cell holds the blank, X or O. *)
Definition xo_cells (b : Board) : bool :=
  forallb (forallb (fun c => (c =? " ") || (c =? "X") || (c =? "O"))%string)
          (grid b).

(** [extends m m']: wherever [m] returns, [m'] returns the same. *)
Definition extends {A} (m m' : M A) : Prop :=
  forall b r, m b = Ok r -> m' b = Ok r.

(** ** Example boards *)

Definition board_of (g : list (list string)) : Board := mkBoard g 3.

(** X at (0,0) and (0,1), O at (1,0) and (1,1). *)
Definition two_in_a_row : Board :=
  board_of [["X"; "X"; " "]; ["O"; "O"; " "]; [" "; " "; " "]].

Definition x_top_row : Board :=
  board_of [["X"; "X"; "X"]; [" "; " "; " "]; [" "; " "; " "]].

Definition full_no_line : Board :=
  board_of [["X"; "O"; "X"]; ["O"; "X"; "O"]; ["O"; "X"; "O"]].

Definition x_won_early : Board :=
  board_of [["X"; "X"; "X"]; ["O"; "O"; " "]; [" "; " "; " "]].

Definition x_in_centre : Board :=
  board_of [[" "; " "; " "]; [" "; "X"; " "]; [" "; " "; " "]].

(** ** A functional reading of the search

    The same search on boards of nine enumerated cells, without state or
    exceptions.  It is proved below to return what [_minimax] and
    [get_move] return, and it is what is evaluated to follow a whole game. *)

Inductive Cell : Type := Blank | MarkX | MarkO.

Definition cell_str (c : Cell) : string :=
  match c with Blank => " " | MarkX => "X" | MarkO => "O" end.

Inductive Cells9 : Type :=
| C9 (c00 c01 c02 c10 c11 c12 c20 c21 c22 : Cell).

(** The [Board] object a [Cells9] stands for. *)
Definition to_board (p : Cells9) (n : Z) : Board :=
  match p with
  | C9 c00 c01 c02 c10 c11 c12 c20 c21 c22 =>
    mkBoard [[cell_str c00; cell_str c01; cell_str c02];
             [cell_str c10; cell_str c11; cell_str c12];
             [cell_str c20; cell_str c21; cell_str c22]] n
  end.

Definition cell_at (p : Cells9) (i j : Z) : Cell :=
  match p with
  | C9 c00 c01 c02 c10 c11 c12 c20 c21 c22 =>
    match i, j with
    | 0, 0 => c00 | 0, 1 => c01 | 0, 2 => c02
    | 1, 0 => c10 | 1, 1 => c11 | 1, 2 => c12
    | 2, 0 => c20 | 2, 1 => c21 | 2, 2 => c22
    | _, _ => Blank
    end
  end.

Definition with_cell (p : Cells9) (i j : Z) (v : Cell) : Cells9 :=
  match p with
  | C9 c00 c01 c02 c10 c11 c12 c20 c21 c22 =>
    match i, j with
    | 0, 0 => C9 v c01 c02 c10 c11 c12 c20 c21 c22
    | 0, 1 => C9 c00 v c02 c10 c11 c12 c20 c21 c22
    | 0, 2 => C9 c00 c01 v c10 c11 c12 c20 c21 c22
    | 1, 0 => C9 c00 c01 c02 v c11 c12 c20 c21 c22
    | 1, 1 => C9 c00 c01 c02 c10 v c12 c20 c21 c22
    | 1, 2 => C9 c00 c01 c02 c10 c11 v c20 c21 c22
    | 2, 0 => C9 c00 c01 c02 c10 c11 c12 v c21 c22
    | 2, 1 => C9 c00 c01 c02 c10 c11 c12 c20 v c22
    | 2, 2 => C9 c00 c01 c02 c10 c11 c12 c20 c21 v
    | _, _ => p
    end
  end.

Definition is_blank (c : Cell) : bool :=
  match c with Blank => true | _ => false end.

Definition cell_eqb (a b : Cell) : bool :=
  match a, b with
  | Blank, Blank | MarkX, MarkX | MarkO, MarkO => true
  | _, _ => false
  end.

(** [a == b == c != ' '] on cells. *)
Definition cell_line (a b c : Cell) : bool :=
  match a, b, c with
  | MarkX, MarkX, MarkX | MarkO, MarkO, MarkO => true
  | _, _, _ => false
  end.

Definition cell_winner (p : Cells9) : option Cell :=
  match p with
  | C9 c00 c01 c02 c10 c11 c12 c20 c21 c22 =>
    if cell_line c00 c01 c02 then Some c00
    else if cell_line c10 c11 c12 then Some c10
    else if cell_line c20 c21 c22 then Some c20
    else if cell_line c00 c10 c20 then Some c00
    else if cell_line c01 c11 c21 then Some c01
    else if cell_line c02 c12 c22 then Some c02
    else if cell_line c00 c11 c22 then Some c00
    else if cell_line c02 c11 c20 then Some c02
    else None
  end.

Definition cells_full (p : Cells9) : bool :=
  match p with
  | C9 c00 c01 c02 c10 c11 c12 c20 c21 c22 =>
    negb (is_blank c00 || is_blank c01 || is_blank c02 ||
          is_blank c10 || is_blank c11 || is_blank c12 ||
          is_blank c20 || is_blank c21 || is_blank c22)
  end.

Definition cell_opponent (me : Cell) : Cell :=
  match me with MarkX => MarkO | _ => MarkX end.

(** The scan over the blank cells: try [v], score, fold with [pick]. *)
Definition scan_cells (pick : Score -> Score -> Score) (init : Score)
           (v : Cell) (score : Cells9 -> Score) (p : Cells9) : Score :=
  fold_left (fun best ij =>
               if is_blank (cell_at p (fst ij) (snd ij))
               then pick best (score (with_cell p (fst ij) (snd ij) v))
               else best)
            cells init.

Fixpoint minimax_cells (fuel : nat) (me : Cell) (depth : Z) (is_max : bool)
         (p : Cells9) : Score :=
  match fuel with
  | O => NegInf
  | S fuel' =>
    match cell_winner p with
    | Some w =>
        if cell_eqb w me then Int (10 - depth) else Int (depth - 10)
    | None =>
        if cells_full p then Int 0
        else if is_max then
          scan_cells py_max NegInf me
                     (minimax_cells fuel' me (depth + 1) false) p
        else
          scan_cells py_min PosInf (cell_opponent me)
                     (minimax_cells fuel' me (depth + 1) true) p
    end
  end.

Definition get_move_cells (fuel : nat) (me : Cell) (p : Cells9)
  : option (Z * Z) :=
  snd (fold_left
         (fun st ij =>
            if is_blank (cell_at p (fst ij) (snd ij)) then
              let score :=
                minimax_cells fuel me 0 false
                              (with_cell p (fst ij) (snd ij) me) in
              if score_gt score (fst st)
              then (score, Some (fst ij, snd ij)) else st
            else st)
         cells (NegInf, None)).


(** [GameLogic.is_game_over] on cells. *)
Definition game_over_cells (p : Cells9) : bool * option string :=
  match cell_winner p with
  | Some w => (true, Some (cell_str w))
  | None => if cells_full p then (true, Some "Draw") else (false, None)
  end.

(** The game loop with an [AIPlayer] on either side, [me] to move; [None]
    when the loop budget runs out or a move is not playable. *)
Fixpoint game_cells (turns fuel : nat) (me : Cell) (p : Cells9)
  : option (option string * Cells9) :=
  match turns with
  | O => None
  | S turns' =>
    match get_move_cells fuel me p with
    | Some (i, j) =>
      if (0 <=? i) && (i <? 3) && ((0 <=? j) && (j <? 3))
         && is_blank (cell_at p i j)
      then
        let p' := with_cell p i j me in
        let over := game_over_cells p' in
        if fst over then Some (snd over, p')
        else game_cells turns' fuel (cell_opponent me) p'
      else None
    | None => None
    end
  end.

Definition blank9 : Cells9 :=
  C9 Blank Blank Blank Blank Blank Blank Blank Blank Blank.

(** ** Vocabulary of the further properties *)

(** The eight lines of the grid as coordinates, in the order
    [check_winner] tests them. *)
Definition winning_lines : list ((Z * Z) * (Z * Z) * (Z * Z)) :=
  [ ((0, 0), (0, 1), (0, 2)); ((1, 0), (1, 1), (1, 2));
    ((2, 0), (2, 1), (2, 2));
    ((0, 0), (1, 0), (2, 0)); ((0, 1), (1, 1), (2, 1));
    ((0, 2), (1, 2), (2, 2));
    ((0, 0), (1, 1), (2, 2)); ((0, 2), (1, 1), (2, 0)) ].

(** The three cells of line [l] all hold [w]. *)
Definition line_holds (b : Board) (l : (Z * Z) * (Z * Z) * (Z * Z))
           (w : string) : Prop :=
  let '(p, q, r) := l in
  get_cell (fst p) (snd p) b = Ok (w, b) /\
  get_cell (fst q) (snd q) b = Ok (w, b) /\
  get_cell (fst r) (snd r) b = Ok (w, b).

(** The condition of the [elif winner:] branch of [_minimax]: a winner is
    reported and it is not [symbol]. *)
Definition foreign_winner (symbol : string) (w : option string) : bool :=
  negb (is_symbol w symbol) && truthy w.

(** [exposed symbol b i j]: with [symbol] written into cell [(i, j)] the
    game is lost at once or after one reply: a winner other than [symbol]
    is reported already, or the opponent's symbol in some blank cell makes
    [check_winner] report one, while [symbol] itself has not won. *)
Definition exposed (symbol : string) (b : Board) (i j : Z) : Prop :=
  exists b1 w1,
    set_cell i j symbol b = Ok (tt, b1) /\
    check_winner b1 = Ok (w1, b1) /\
    is_symbol w1 symbol = false /\
    (truthy w1 = true \/
     exists k l b2 w2,
       0 <= k < 3 /\ 0 <= l < 3 /\
       get_cell k l b1 = Ok (" ", b1) /\
       set_cell k l (opponent_of symbol) b1 = Ok (tt, b2) /\
       check_winner b2 = Ok (w2, b2) /\
       foreign_winner symbol w2 = true).

(** A board on which O threatens the top row and X is to move. *)
Definition o_threatens : Board :=
  board_of [["O"; "O"; " "]; [" "; "X"; " "]; [" "; " "; "X"]].

(** What [play_turn] relies on in a player's [get_move]: whenever it
    returns, it returns a move [is_valid_move] accepts and it has left the
    board alone.  [HumanPlayer.get_move] only returns from its loop after
    [board.is_valid_move(row, col)]. *)
Definition returns_valid_moves (h : Player) : Prop :=
  forall b mv b',
    p_get_move h b = Ok (mv, b') ->
    b' = b /\
    exists i j, mv = Some (i, j) /\ is_valid_move i j b = Ok (true, b).

(** The result [res] of a finished game is not a win for X. *)
Definition not_x (res : option string) : bool :=
  match res with
  | Some s => (s =? "Draw")%string || (s =? "O")%string
  | None => false
  end.

(** Every game from position [p] in which X may take any blank cell and O
    answers with [get_move_cells] ends within [turns] turns without a win
    for X.  [first] tells whether X is to move. *)
Fixpoint x_cannot_win (turns : nat) (first : bool) (p : Cells9) : bool :=
  match turns with
  | O => false
  | S turns' =>
    let next p' :=
      let over := game_over_cells p' in
      if fst over then not_x (snd over)
      else x_cannot_win turns' (negb first) p' in
    if first then
      forallb (fun ij =>
                 if is_blank (cell_at p (fst ij) (snd ij))
                 then next (with_cell p (fst ij) (snd ij) MarkX)
                 else true)
              cells
    else
      match get_move_cells 20 MarkO p with
      | Some (i, j) =>
        if (0 <=? i) && (i <? 3) && ((0 <=? j) && (j <? 3))
           && is_blank (cell_at p i j)
        then next (with_cell p i j MarkO)
        else false
      | None => false
      end
  end.

(** ** class HumanPlayer *)

(** What one typed line amounts to after [move.split(',')] and [int]:
    either the unpacking or a conversion raises ValueError, or two
    integers come out. *)
Inductive Typed : Type :=
| Malformed
| Coords (row col : Z).

(** [HumanPlayer.get_move] run against the lines the user types.  The
    loop goes on after a malformed line, after a refused move, and after
    an IndexError out of [is_valid_move] (the [except] clause catches
    both ValueError and IndexError); it returns the first pair
    [is_valid_move] accepts.  Running out of typed lines is the end of the
    model's budget for the [while True] loop.  The prompt and the messages
    printed are left out. *)
Fixpoint human_get_move (typed : list Typed) : M (option (Z * Z)) :=
  match typed with
  | [] => raise LoopBudget
  | Malformed :: rest => human_get_move rest
  | Coords row col :: rest =>
    fun b =>
      match is_valid_move row col b with
      | Ok (true, b') => Ok (Some (row, col), b')
      | Ok (false, b') => human_get_move rest b'
      | Raise IndexError => human_get_move rest b
      | Raise e => Raise e
      end
  end.

(** A human player: what is typed may depend on the board shown. *)
Definition HumanPlayer (symbol : string) (typed : Board -> list Typed)
  : Player :=
  mkPlayer symbol (fun b => human_get_move (typed b) b).

(** Somebody who types the nine cells in scan order at every prompt. *)
Definition types_every_cell (b : Board) : list Typed :=
  map (fun ij => Coords (fst ij) (snd ij)) cells.

(** ** class Statistics *)

(** [self.data]: the dict of counters, keys in insertion order.  The
    counters are taken to be ints, as in the dict [_load] falls back to
    and as [save] writes them. *)
Definition Stats : Type := list (string * Z).

(** The dict [_load] returns when there is no usable file. *)
Definition default_stats : Stats :=
  [("games", 0); ("x_wins", 0); ("o_wins", 0); ("draws", 0)].

(** [d[k]]; [None] stands for KeyError. *)
Fixpoint dict_get (d : Stats) (k : string) : option Z :=
  match d with
  | [] => None
  | (k', v) :: rest => if (k' =? k)%string then Some v else dict_get rest k
  end.

(** [d[k] = v]: an existing key keeps its place, a new one goes last. *)
Fixpoint dict_set (d : Stats) (k : string) (v : Z) : Stats :=
  match d with
  | [] => [(k, v)]
  | (k', v') :: rest =>
    if (k' =? k)%string then (k, v) :: rest
    else (k', v') :: dict_set rest k v
  end.

(** [d[k] += 1] *)
Definition increment (d : Stats) (k : string) : option Stats :=
  match dict_get d k with
  | Some v => Some (dict_set d k (v + 1))
  | None => None
  end.

(** [Statistics.update], without the [save] that ends it. *)
Definition update (result : option string) (d : Stats) : option Stats :=
  match increment d "games" with
  | None => None
  | Some d1 =>
    if is_symbol result "X" then increment d1 "x_wins"
    else if is_symbol result "O" then increment d1 "o_wins"
    else if is_symbol result "Draw" then increment d1 "draws"
    else Some d1
  end.

(** The games counted are the wins and draws counted. *)
Definition balanced (d : Stats) : Prop :=
  exists g x o dr,
    dict_get d "games" = Some g /\ dict_get d "x_wins" = Some x /\
    dict_get d "o_wins" = Some o /\ dict_get d "draws" = Some dr /\
    g = x + o + dr.


(** * Properties *)

(** ** Running a method *)

Lemma bind_ok {A B} (m : M A) (k : A -> M B) b r b' :
  bind m k b = Ok (r, b') ->
  exists a b1, m b = Ok (a, b1) /\ k a b1 = Ok (r, b').
Proof.
  unfold bind. destruct (m b) as [[a b1]|e]; [|discriminate].
  intros H. exists a, b1. split; [reflexivity|exact H].
Qed.

Lemma bind_step {A B} (m : M A) (k : A -> M B) b a b1 :
  m b = Ok (a, b1) -> bind m k b = k a b1.
Proof. unfold bind. intros ->. reflexivity. Qed.

Lemma lift_ok {A} (r : Result A) b a b' :
  lift r b = Ok (a, b') -> r = Ok a /\ b' = b.
Proof.
  unfold lift. destruct r; [|discriminate].
  intros H. injection H as -> ->. split; reflexivity.
Qed.

(** ** Methods that only read the board *)

Lemma preserves_ret {A} (a : A) : preserves (ret a).
Proof. intros b r b' H. injection H as _ ->. reflexivity. Qed.

Lemma preserves_raise {A} e : preserves (@raise A e).
Proof. intros b r b' H. discriminate. Qed.

Lemma preserves_lift {A} (r : Result A) : preserves (lift r).
Proof. intros b a b' H. apply lift_ok in H. tauto. Qed.

Lemma preserves_get_grid : preserves get_grid.
Proof. intros b r b' H. injection H as _ ->. reflexivity. Qed.

Lemma preserves_bind {A B} (m : M A) (k : A -> M B) :
  preserves m -> (forall a, preserves (k a)) -> preserves (bind m k).
Proof.
  intros Hm Hk b r b' H. apply bind_ok in H as (a & b1 & H1 & H2).
  apply Hm in H1. subst b1. exact (Hk a _ _ _ H2).
Qed.

Lemma preserves_if {A} (c : bool) (m1 m2 : M A) :
  preserves m1 -> preserves m2 -> preserves (if c then m1 else m2).
Proof. destruct c; auto. Qed.

Lemma preserves_for_each {A St} (l : list A) (body : A -> St -> M St) :
  (forall x acc, preserves (body x acc)) ->
  forall acc, preserves (for_each l body acc).
Proof.
  intros Hb. induction l as [|x l IH]; intros acc; simpl.
  - apply preserves_ret.
  - apply preserves_bind; auto.
Qed.

Lemma preserves_for_return {A R} (l : list A) (body : A -> M (option R)) :
  (forall x, preserves (body x)) -> preserves (for_return l body).
Proof.
  intros Hb. induction l as [|x l IH]; simpl.
  - apply preserves_ret.
  - apply preserves_bind; [apply Hb|].
    intros [v|]; [apply preserves_ret|exact IH].
Qed.

Create HintDb frame.
#[local] Hint Resolve preserves_ret preserves_raise preserves_lift
  preserves_get_grid preserves_if : frame.
#[local] Hint Extern 2 (preserves (bind _ _)) =>
  apply preserves_bind; [|intro] : frame.
#[local] Hint Extern 2 (preserves (for_return _ _)) =>
  apply preserves_for_return; intro : frame.
#[local] Hint Extern 2 (preserves (match ?x with Some _ => _ | None => _ end)) =>
  destruct x : frame.

Lemma preserves_get_cell i j : preserves (get_cell i j).
Proof. unfold get_cell. auto 10 with frame. Qed.
#[local] Hint Resolve preserves_get_cell : frame.

Lemma preserves_three_equal ea eb ec :
  preserves ea -> preserves eb -> preserves ec ->
  preserves (three_equal ea eb ec).
Proof. intros. unfold three_equal. auto 10 with frame. Qed.
#[local] Hint Resolve preserves_three_equal : frame.

Lemma preserves_is_full : preserves is_full.
Proof. unfold is_full. auto 10 with frame. Qed.

Lemma preserves_check_winner : preserves check_winner.
Proof. unfold check_winner. auto 20 with frame. Qed.
#[local] Hint Resolve preserves_is_full preserves_check_winner : frame.

Lemma preserves_is_game_over : preserves is_game_over.
Proof. unfold is_game_over. auto 10 with frame. Qed.

Lemma preserves_is_valid_move row col : preserves (is_valid_move row col).
Proof. unfold is_valid_move. auto 10 with frame. Qed.

(** ** Indexing and assignment on Python lists *)

Lemma norm_index_lt {A} (l : list A) i k :
  norm_index l i = Some k -> (k < length l)%nat.
Proof.
  unfold norm_index.
  destruct ((0 <=? i) && (i <? Z.of_nat (length l))) eqn:E1.
  - intros H. injection H as <-. apply andb_prop in E1 as [? ?]. lia.
  - destruct ((i <? 0) && (- Z.of_nat (length l) <=? i)) eqn:E2; [|discriminate].
    intros H. injection H as <-. apply andb_prop in E2 as [? ?]. lia.
Qed.

Lemma replace_nth_length {A} (l : list A) k v :
  length (replace_nth l k v) = length l.
Proof.
  revert k. induction l as [|h t IH]; intros [|k]; simpl; auto.
Qed.

Lemma norm_index_replace {A} (l : list A) k v i :
  norm_index (replace_nth l k v) i = norm_index l i.
Proof. unfold norm_index. rewrite replace_nth_length. reflexivity. Qed.

Lemma nth_error_replace_same {A} (l : list A) k v :
  (k < length l)%nat -> nth_error (replace_nth l k v) k = Some v.
Proof.
  revert k. induction l as [|h t IH]; intros [|k] H; simpl in *;
    try lia; auto. apply IH. lia.
Qed.

Lemma replace_nth_twice {A} (l : list A) k v w :
  replace_nth (replace_nth l k v) k w = replace_nth l k w.
Proof.
  revert k. induction l as [|h t IH]; intros [|k]; simpl; auto.
  f_equal. apply IH.
Qed.

Lemma replace_nth_id {A} (l : list A) k x :
  nth_error l k = Some x -> replace_nth l k x = l.
Proof.
  revert k. induction l as [|h t IH]; intros [|k] H; simpl in *;
    try discriminate.
  - injection H as ->. reflexivity.
  - f_equal. apply IH. exact H.
Qed.

Lemma index_ok {A} (l : list A) i x :
  index l i = Ok x ->
  exists k, norm_index l i = Some k /\ nth_error l k = Some x.
Proof.
  unfold index. destruct (norm_index l i) as [k|]; [|discriminate].
  destruct (nth_error l k) as [y|] eqn:E; [|discriminate].
  intros H. injection H as ->. exists k. split; [reflexivity|exact E].
Qed.

Lemma store_ok {A} (l : list A) i v l' :
  store l i v = Ok l' ->
  exists k, norm_index l i = Some k /\ l' = replace_nth l k v.
Proof.
  unfold store. destruct (norm_index l i) as [k|]; [|discriminate].
  intros H. injection H as <-. exists k. split; reflexivity.
Qed.

(** What a successful [board.grid[i][j] = v] does to the grid. *)
Lemma set_cell_ok i j v b u b' :
  set_cell i j v b = Ok (u, b') ->
  exists ki kj row,
    norm_index (grid b) i = Some ki /\ nth_error (grid b) ki = Some row /\
    norm_index row j = Some kj /\
    b' = mkBoard (replace_nth (grid b) ki (replace_nth row kj v)) (size b).
Proof.
  unfold set_cell. intros H.
  apply bind_ok in H as (g & b1 & H1 & H). injection H1 as <- <-.
  apply bind_ok in H as (row & b1 & H1 & H).
  apply lift_ok in H1 as [H1 ->].
  apply bind_ok in H as (row' & b1 & H2 & H).
  apply lift_ok in H2 as [H2 ->].
  apply bind_ok in H as (g' & b1 & H3 & H).
  apply lift_ok in H3 as [H3 ->].
  injection H as _ <-.
  apply index_ok in H1 as (ki & Hki & Hrow).
  apply store_ok in H2 as (kj & Hkj & ->).
  apply store_ok in H3 as (ki' & Hki' & ->).
  assert (ki' = ki) by congruence. subst ki'.
  exists ki, kj, row. auto.
Qed.

Lemma get_cell_ok i j b c b' :
  get_cell i j b = Ok (c, b') ->
  b' = b /\
  exists ki kj row,
    norm_index (grid b) i = Some ki /\ nth_error (grid b) ki = Some row /\
    norm_index row j = Some kj /\ nth_error row kj = Some c.
Proof.
  intros H. split; [exact (preserves_get_cell i j _ _ _ H)|].
  unfold get_cell in H.
  apply bind_ok in H as (g & b1 & H1 & H). injection H1 as <- <-.
  apply bind_ok in H as (row & b1 & H1 & H).
  apply lift_ok in H1 as [H1 ->]. apply lift_ok in H as [H2 _].
  apply index_ok in H1 as (ki & Hki & Hrow).
  apply index_ok in H2 as (kj & Hkj & Hc).
  exists ki, kj, row. auto.
Qed.

(** Mutate, then backtrack: writing [v] into a cell and then writing back
    what the cell held gives the board back, whatever its shape. *)
Lemma set_cell_restore i j c v b b0 b1 b2 u1 u2 :
  get_cell i j b = Ok (c, b0) ->
  set_cell i j v b = Ok (u1, b1) ->
  set_cell i j c b1 = Ok (u2, b2) ->
  b2 = b.
Proof.
  intros Hg H1 H2.
  apply get_cell_ok in Hg as (_ & ki & kj & row & Hki & Hrow & Hkj & Hc).
  apply set_cell_ok in H1 as (ki1 & kj1 & row1 & Hki1 & Hrow1 & Hkj1 & ->).
  assert (ki1 = ki) by congruence. subst ki1.
  assert (row1 = row) by congruence. subst row1.
  assert (kj1 = kj) by congruence. subst kj1.
  apply set_cell_ok in H2 as (ki2 & kj2 & row2 & Hki2 & Hrow2 & Hkj2 & ->).
  simpl in *.
  rewrite norm_index_replace in Hki2.
  assert (ki2 = ki) by congruence. subst ki2.
  rewrite nth_error_replace_same in Hrow2
    by (eapply norm_index_lt; eassumption).
  injection Hrow2 as <-.
  rewrite norm_index_replace in Hkj2.
  assert (kj2 = kj) by congruence. subst kj2.
  rewrite !replace_nth_twice.
  rewrite (replace_nth_id row kj c Hc).
  rewrite (replace_nth_id (grid b) ki row Hrow).
  destruct b; reflexivity.
Qed.

(** ** Backtracking in the search *)

(** One loop iteration of the search: try [symbol] in cell [(i, j)] when it
    is blank, run [m] on the modified board, blank the cell again.  If [m]
    and the continuation leave the board alone, so does the iteration. *)
Lemma preserves_try {A B} i j symbol (m : M A) (k : A -> M B) (e : M B) :
  preserves m -> (forall a, preserves (k a)) -> preserves e ->
  preserves (c <- get_cell i j ;;
             if (c =? " ")%string then
               set_cell i j symbol ;;; a <- m ;; set_cell i j " " ;;; k a
             else e).
Proof.
  intros Hm Hk He b r b' H.
  apply bind_ok in H as (c & b0 & Hc & H).
  pose proof (preserves_get_cell _ _ _ _ _ Hc) as ->.
  destruct (c =? " ")%string eqn:E; [|exact (He _ _ _ H)].
  apply String.eqb_eq in E. subst c.
  apply bind_ok in H as (u1 & b1 & H1 & H).
  apply bind_ok in H as (a & b1' & H2 & H).
  apply Hm in H2. subst b1'.
  apply bind_ok in H as (u2 & b2 & H3 & H).
  apply Hk in H. subst b'.
  exact (set_cell_restore _ _ _ _ _ _ _ _ _ _ Hc H1 H3).
Qed.

Lemma preserves_minimax fuel symbol :
  forall depth is_max, preserves (_minimax fuel symbol depth is_max).
Proof.
  induction fuel as [|fuel IH]; intros depth is_max; cbn [_minimax].
  - apply preserves_raise.
  - apply preserves_bind; [apply preserves_check_winner|intros winner].
    repeat apply preserves_if; try apply preserves_ret.
    apply preserves_bind; [apply preserves_is_full|intros full].
    repeat apply preserves_if; try apply preserves_ret.
    + apply preserves_for_each. intros i best.
      apply preserves_for_each. intros j best'.
      apply (preserves_try i j symbol
               (_minimax fuel symbol (depth + 1) false)
               (fun v => ret (py_max best' v)) (ret best'));
        auto with frame.
    + apply preserves_for_each. intros i best.
      apply preserves_for_each. intros j best'.
      apply (preserves_try i j (opponent_of symbol)
               (_minimax fuel symbol (depth + 1) true)
               (fun v => ret (py_min best' v)) (ret best'));
        auto with frame.
Qed.

Lemma preserves_get_move fuel symbol : preserves (get_move fuel symbol).
Proof.
  unfold get_move.
  apply preserves_bind; [|intros; apply preserves_ret].
  apply preserves_for_each. intros i st.
  apply preserves_for_each. intros j st'.
  apply (preserves_try i j symbol (_minimax fuel symbol 0 false)
           (fun score => if score_gt score (fst st')
                         then ret (score, Some (i, j)) else ret st')
           (ret st')); auto with frame.
  apply preserves_minimax.
Qed.

(** ** Boards of three rows of three cells *)

Lemma is_3x3_inv b :
  is_3x3 b = true ->
  exists c00 c01 c02 c10 c11 c12 c20 c21 c22 n,
    b = mkBoard [[c00; c01; c02]; [c10; c11; c12]; [c20; c21; c22]] n.
Proof.
  destruct b as [g n]. unfold is_3x3. simpl. intros H.
  apply andb_prop in H as [Hl Hr]. apply Nat.eqb_eq in Hl.
  destruct g as [|r0 [|r1 [|r2 [|? ?]]]]; try discriminate.
  simpl in Hr.
  repeat match goal with
         | H : _ && _ = true |- _ => apply andb_prop in H as [? ?]
         | H : (_ =? _)%nat = true |- _ => apply Nat.eqb_eq in H
         end.
  destruct r0 as [|? [|? [|? [|? ?]]]]; try discriminate.
  destruct r1 as [|? [|? [|? [|? ?]]]]; try discriminate.
  destruct r2 as [|? [|? [|? [|? ?]]]]; try discriminate.
  repeat eexists.
Qed.

Ltac grid9 H :=
  apply is_3x3_inv in H;
  destruct H as (?c00 & ?c01 & ?c02 & ?c10 & ?c11 & ?c12 &
                 ?c20 & ?c21 & ?c22 & ?n & ->).

Lemma cells_nth k i j :
  nth_error cells k = Some (i, j) ->
  (k < 9)%nat /\ 0 <= i < 3 /\ 0 <= j < 3 /\ Z.of_nat k = 3 * i + j.
Proof.
  intros H.
  do 9 (destruct k as [|k]; [injection H as <- <-; lia|]).
  destruct k; discriminate.
Qed.

Lemma cells_at i j :
  0 <= i < 3 -> 0 <= j < 3 ->
  nth_error cells (Z.to_nat (3 * i + j)) = Some (i, j).
Proof.
  intros Hi Hj.
  assert (i = 0 \/ i = 1 \/ i = 2) as [-> | [-> | ->]] by lia;
    assert (j = 0 \/ j = 1 \/ j = 2) as [-> | [-> | ->]] by lia;
    reflexivity.
Qed.

Ltac in_range3 i j :=
  let Hi := fresh in let Hj := fresh in
  assert (Hi : i = 0 \/ i = 1 \/ i = 2) by lia;
  assert (Hj : j = 0 \/ j = 1 \/ j = 2) by lia;
  destruct Hi as [-> | [-> | ->]]; destruct Hj as [-> | [-> | ->]].

Lemma get_cell_3x3 i j b :
  is_3x3 b = true -> 0 <= i < 3 -> 0 <= j < 3 ->
  exists c, get_cell i j b = Ok (c, b).
Proof.
  intros W Hi Hj. grid9 W. in_range3 i j; eexists; reflexivity.
Qed.

Lemma set_cell_3x3 i j v b :
  is_3x3 b = true -> 0 <= i < 3 -> 0 <= j < 3 ->
  exists b1,
    set_cell i j v b = Ok (tt, b1) /\ is_3x3 b1 = true /\
    get_cell i j b1 = Ok (v, b1) /\
    (forall i' j', 0 <= i' < 3 -> 0 <= j' < 3 -> (i', j') <> (i, j) ->
       forall c, get_cell i' j' b = Ok (c, b) -> get_cell i' j' b1 = Ok (c, b1)) /\
    (get_cell i j b = Ok (" ", b) ->
       (empties b1 + 1 = empties b + Nat.b2n (v =? " ")%string)%nat).
Proof.
  intros W Hi Hj. grid9 W.
  in_range3 i j; eexists; (split; [reflexivity|]);
    (split; [reflexivity|]); (split; [reflexivity|]);
    (split;
     [ intros i' j' Hi' Hj' Hne c; in_range3 i' j';
       solve [congruence | intros Hc; injection Hc as <-; reflexivity]
     | intros Hc; injection Hc as ->; unfold empties; simpl; lia ]).
Qed.

Lemma is_full_spec b :
  is_full b = Ok (Nat.eqb (empties b) 0, b).
Proof.
  unfold is_full, bind, get_grid, ret, empties. do 2 f_equal.
  induction (grid b) as [|row g IH]; simpl; [reflexivity|].
  rewrite map_app, list_sum_app, IH. clear IH.
  assert (forallb (fun cell => negb (cell =? " ")%string) row
          = Nat.eqb (list_sum (map (fun c => Nat.b2n (c =? " ")%string) row)) 0)
    as ->.
  { induction row as [|c row IH]; simpl; [reflexivity|].
    rewrite IH. destruct (c =? " ")%string; simpl; [reflexivity|].
    reflexivity. }
  destruct (list_sum (map _ row)); simpl; [reflexivity|reflexivity].
Qed.

Lemma empties_le_9 b : is_3x3 b = true -> (empties b <= 9)%nat.
Proof.
  intros W. grid9 W. unfold empties. simpl.
  repeat match goal with
         | |- context [Nat.b2n ?x] => destruct x; simpl
         end; lia.
Qed.

(** A blank cell exists on a board that is not full. *)
Lemma blank_cell b :
  is_3x3 b = true -> empties b <> 0%nat ->
  exists k i j, nth_error cells k = Some (i, j) /\
                get_cell i j b = Ok (" ", b).
Proof.
  intros W. grid9 W. unfold empties. simpl. intros H.
  destruct (c00 =? " ")%string eqn:E00;
    [apply String.eqb_eq in E00; subst; exists 0%nat, 0, 0; split; reflexivity|].
  destruct (c01 =? " ")%string eqn:E01;
    [apply String.eqb_eq in E01; subst; exists 1%nat, 0, 1; split; reflexivity|].
  destruct (c02 =? " ")%string eqn:E02;
    [apply String.eqb_eq in E02; subst; exists 2%nat, 0, 2; split; reflexivity|].
  destruct (c10 =? " ")%string eqn:E10;
    [apply String.eqb_eq in E10; subst; exists 3%nat, 1, 0; split; reflexivity|].
  destruct (c11 =? " ")%string eqn:E11;
    [apply String.eqb_eq in E11; subst; exists 4%nat, 1, 1; split; reflexivity|].
  destruct (c12 =? " ")%string eqn:E12;
    [apply String.eqb_eq in E12; subst; exists 5%nat, 1, 2; split; reflexivity|].
  destruct (c20 =? " ")%string eqn:E20;
    [apply String.eqb_eq in E20; subst; exists 6%nat, 2, 0; split; reflexivity|].
  destruct (c21 =? " ")%string eqn:E21;
    [apply String.eqb_eq in E21; subst; exists 7%nat, 2, 1; split; reflexivity|].
  destruct (c22 =? " ")%string eqn:E22;
    [apply String.eqb_eq in E22; subst; exists 8%nat, 2, 2; split; reflexivity|].
  simpl in H. congruence.
Qed.

(** ** Methods that return on a given board *)

Lemma returns_ret {A} b (a : A) : returns_on b (ret a).
Proof. exists a. reflexivity. Qed.

Lemma returns_bind {A B} b (m : M A) (k : A -> M B) :
  returns_on b m -> (forall a, returns_on b (k a)) -> returns_on b (bind m k).
Proof.
  intros [a Ha] Hk. destruct (Hk a) as [r Hr].
  exists r. rewrite (bind_step _ _ _ _ _ Ha). exact Hr.
Qed.

Lemma returns_bind_grid {B} b (k : list (list string) -> M B) :
  returns_on b (k (grid b)) -> returns_on b (bind get_grid k).
Proof. intros [r Hr]. exists r. exact Hr. Qed.

Lemma returns_if {A} b (c : bool) (m1 m2 : M A) :
  returns_on b m1 -> returns_on b m2 -> returns_on b (if c then m1 else m2).
Proof. destruct c; auto. Qed.

Lemma returns_for_return {A R} b (l : list A) (body : A -> M (option R)) :
  (forall x, In x l -> returns_on b (body x)) ->
  returns_on b (for_return l body).
Proof.
  induction l as [|x l IH]; intros Hb; simpl.
  - apply returns_ret.
  - apply returns_bind; [apply Hb; left; reflexivity|].
    intros [v|]; [apply returns_ret|].
    apply IH. intros y Hy. apply Hb. right. exact Hy.
Qed.

Lemma returns_three_equal b ea eb ec :
  returns_on b ea -> returns_on b eb -> returns_on b ec ->
  returns_on b (three_equal ea eb ec).
Proof.
  intros. unfold three_equal.
  repeat (first [apply returns_bind; [assumption|intro]
                |apply returns_if | apply returns_ret]).
Qed.

Lemma returns_get_cell b i j :
  is_3x3 b = true -> 0 <= i < 3 -> 0 <= j < 3 -> returns_on b (get_cell i j).
Proof. intros. apply get_cell_3x3; assumption. Qed.

Lemma returns_index_row b (row : list string) i :
  length row = 3%nat -> 0 <= i < 3 -> returns_on b (lift (index row i)).
Proof.
  intros Hl Hi.
  destruct row as [|? [|? [|? [|? ?]]]]; try discriminate.
  assert (i = 0 \/ i = 1 \/ i = 2) as [-> | [-> | ->]] by lia;
    eexists; reflexivity.
Qed.

Lemma returns_check_winner b :
  is_3x3 b = true -> returns_on b check_winner.
Proof.
  intros W. unfold check_winner.
  apply returns_bind_grid.
  assert (Hrows : forall row, In row (grid b) -> length row = 3%nat).
  { unfold is_3x3 in W. apply andb_prop in W as [_ W].
    rewrite forallb_forall in W. intros row Hr.
    apply Nat.eqb_eq. apply W. exact Hr. }
  apply returns_bind.
  { apply returns_for_return.
    intros row Hr. apply returns_bind.
    - apply returns_three_equal; apply returns_index_row; auto; lia.
    - intros t. apply returns_if; [|apply returns_ret].
      apply returns_bind; [apply returns_index_row; auto; lia|].
      intro. apply returns_ret. }
  intros [w|]; [apply returns_ret|].
  apply returns_bind.
  { apply returns_for_return. intros col Hc.
    assert (0 <= col < 3) by (simpl in Hc; lia).
    apply returns_bind.
    - apply returns_three_equal; apply returns_get_cell; auto; lia.
    - intros t. apply returns_if; [|apply returns_ret].
      apply returns_bind; [apply returns_get_cell; auto; lia|].
      intro. apply returns_ret. }
  intros [w|]; [apply returns_ret|].
  repeat (first [ apply returns_ret
                | apply returns_if
                | apply returns_three_equal
                | apply returns_get_cell; [assumption|lia|lia]
                | apply returns_bind; [|intro] ]).
Qed.

(** ** Loops: flattening and invariants *)

Lemma bind_ext {A B} (m : M A) (k k' : A -> M B) b :
  (forall a b1, k a b1 = k' a b1) -> bind m k b = bind m k' b.
Proof. intros H. unfold bind. destruct (m b) as [[a b1]|e]; auto. Qed.

Lemma bind_assoc {A B C} (m : M A) (k : A -> M B) (h : B -> M C) b :
  bind (bind m k) h b = bind m (fun a => bind (k a) h) b.
Proof. unfold bind. destruct (m b) as [[a b1]|e]; reflexivity. Qed.

Lemma for_each_app {A St} (l l' : list A) (body : A -> St -> M St) acc b :
  for_each (l ++ l') body acc b
  = bind (for_each l body acc) (for_each l' body) b.
Proof.
  revert acc b. induction l as [|x l IH]; intros acc b; simpl.
  - reflexivity.
  - rewrite bind_assoc. apply bind_ext. intros a b1. apply IH.
Qed.

Lemma for_each_map {A B St} (f : A -> B) (l : list A)
      (body : B -> St -> M St) acc b :
  for_each (map f l) body acc b = for_each l (fun x => body (f x)) acc b.
Proof.
  revert acc b. induction l as [|x l IH]; intros acc b; simpl.
  - reflexivity.
  - apply bind_ext. intros a b1. apply IH.
Qed.

(** Two nested [for] loops scan the product of their ranges. *)
Lemma for_each_nested {A B St} (l1 : list A) (l2 : list B)
      (body : A -> B -> St -> M St) acc b :
  for_each l1 (fun i st => for_each l2 (fun j st' => body i j st') st) acc b
  = for_each (list_prod l1 l2) (fun p st => body (fst p) (snd p) st) acc b.
Proof.
  revert acc b. induction l1 as [|x l1 IH]; intros acc b; simpl.
  - reflexivity.
  - rewrite for_each_app. unfold bind. rewrite for_each_map. simpl.
    destruct (for_each l2 _ acc b) as [[a b1]|e]; [apply IH|reflexivity].
Qed.

(** A loop whose iterations return and leave the board [b] alone, with an
    invariant [I k acc] on the local variables after [k] iterations. *)
Lemma for_each_inv {A St} (l : list A) (body : A -> St -> M St) (b : Board)
      (I : nat -> St -> Prop) acc0 :
  I 0%nat acc0 ->
  (forall k x acc, nth_error l k = Some x -> I k acc ->
     exists acc', body x acc b = Ok (acc', b) /\ I (S k) acc') ->
  exists acc', for_each l body acc0 b = Ok (acc', b) /\ I (length l) acc'.
Proof.
  revert I acc0. induction l as [|x l IH]; intros I acc0 H0 Hstep; simpl.
  - exists acc0. split; [reflexivity|exact H0].
  - destruct (Hstep 0%nat x acc0 eq_refl H0) as (acc1 & E1 & I1).
    destruct (IH (fun k => I (S k)) acc1 I1) as (acc' & E & I').
    { intros k y acc Hk HI. apply (Hstep (S k) y acc Hk HI). }
    exists acc'. split; [|exact I'].
    rewrite (bind_step _ _ _ _ _ E1). exact E.
Qed.

(** One iteration that finds the cell blank, tries [v] there, runs [m] and
    blanks the cell again: it returns what the continuation returns on the
    original board. *)
Lemma try_blank {A B} i j v (m : M A) (k : A -> M B) (e : M B) b b1 a :
  get_cell i j b = Ok (" ", b) ->
  set_cell i j v b = Ok (tt, b1) ->
  is_3x3 b1 = true -> 0 <= i < 3 -> 0 <= j < 3 ->
  m b1 = Ok (a, b1) ->
  (c <- get_cell i j ;;
   if (c =? " ")%string then
     set_cell i j v ;;; a <- m ;; set_cell i j " " ;;; k a
   else e) b = k a b.
Proof.
  intros Hc Hs W Hi Hj Hm.
  rewrite (bind_step _ _ _ _ _ Hc). simpl.
  rewrite (bind_step _ _ _ _ _ Hs).
  rewrite (bind_step _ _ _ _ _ Hm).
  destruct (set_cell_3x3 i j " " b1 W Hi Hj) as (b2 & Hs2 & _).
  rewrite (bind_step _ _ _ _ _ Hs2).
  rewrite (set_cell_restore _ _ _ _ _ _ _ _ _ _ Hc Hs Hs2). reflexivity.
Qed.

Lemma try_filled {A B} i j v (m : M A) (k : A -> M B) (e : M B) b c :
  get_cell i j b = Ok (c, b) -> (c =? " ")%string = false ->
  (c <- get_cell i j ;;
   if (c =? " ")%string then
     set_cell i j v ;;; a <- m ;; set_cell i j " " ;;; k a
   else e) b = e b.
Proof.
  intros Hc E. rewrite (bind_step _ _ _ _ _ Hc). rewrite E. reflexivity.
Qed.

(** ** The search returns *)

(** The scan shared by the two branches of [_minimax]: every blank cell is
    tried with [v], scored by [m], and folded into the running best with
    [pick] ([max] or [min]).  On a board with a blank cell the scan returns
    one of the scores [m] gave, on the board it started from. *)
Lemma scan_returns (pick : Score -> Score -> Score) (init : Score)
      (v : string) (m : M Score) (P : Z -> Prop) b :
  is_3x3 b = true -> empties b <> 0%nat ->
  (forall z, pick init (Int z) = Int z) ->
  (forall a z, pick (Int a) (Int z) = Int a \/ pick (Int a) (Int z) = Int z) ->
  (forall i j b1, 0 <= i < 3 -> 0 <= j < 3 ->
     get_cell i j b = Ok (" ", b) -> set_cell i j v b = Ok (tt, b1) ->
     is_3x3 b1 = true ->
     exists z, m b1 = Ok (Int z, b1) /\ P z) ->
  exists z,
    for_each range3 (fun i best =>
      for_each range3 (fun j best =>
        c <- get_cell i j ;;
        if (c =? " ")%string then
          set_cell i j v ;;;
          x <- m ;;
          let best := pick best x in
          set_cell i j " " ;;;
          ret best
        else ret best) best) init b = Ok (Int z, b) /\ P z.
Proof.
  intros W Hne Hinit Hpick Hm.
  rewrite for_each_nested. change (list_prod range3 range3) with cells.
  match goal with
  | |- context [for_each cells ?body init b] =>
    destruct (for_each_inv cells body b
      (fun k acc =>
         (acc = init /\
          forall k' i j, (k' < k)%nat -> nth_error cells k' = Some (i, j) ->
                         get_cell i j b <> Ok (" ", b)) \/
         (exists z, acc = Int z /\ P z)) init) as (acc & E & HI)
  end.
  - left. split; [reflexivity|]. intros k' i j Hk. lia.
  - intros k [i j] acc Hk HI. cbn [fst snd].
    destruct (cells_nth _ _ _ Hk) as (_ & Hi & Hj & _).
    destruct (get_cell_3x3 i j b W Hi Hj) as [c Hc].
    destruct (c =? " ")%string eqn:Ec.
    + apply String.eqb_eq in Ec. subst c.
      destruct (set_cell_3x3 i j v b W Hi Hj) as (b1 & Hs & W1 & _).
      destruct (Hm i j b1 Hi Hj Hc Hs W1) as (z & Hz & Pz).
      rewrite (try_blank i j v m (fun x => ret (pick acc x)) (ret acc)
                 b b1 (Int z) Hc Hs W1 Hi Hj Hz).
      eexists. split; [reflexivity|]. right.
      destruct HI as [[-> _] | (a & -> & Pa)].
      * rewrite Hinit. eauto.
      * destruct (Hpick a z) as [-> | ->]; eauto.
    + rewrite (try_filled i j v m (fun x => ret (pick acc x)) (ret acc)
                 b c Hc Ec).
      eexists. split; [reflexivity|].
      destruct HI as [[-> HI] | HI]; [left|right; exact HI].
      split; [reflexivity|]. intros k' i' j' Hk' Hn.
      destruct (Nat.eq_dec k' k) as [-> | Hd].
      * rewrite Hk in Hn. injection Hn as <- <-.
        rewrite Hc. intros H. injection H as ->. discriminate.
      * apply (HI k' i' j'); [lia|exact Hn].
  - destruct HI as [[_ HI] | (z & -> & Pz)].
    + exfalso. destruct (blank_cell b W Hne) as (k & i & j & Hk & Hc).
      apply (HI k i j); [|exact Hk|exact Hc].
      apply cells_nth in Hk. simpl. lia.
    + exists z. split; [exact E|exact Pz].
Qed.

Lemma py_max_init z : py_max NegInf (Int z) = Int z.
Proof. reflexivity. Qed.

Lemma py_min_init z : py_min PosInf (Int z) = Int z.
Proof. reflexivity. Qed.

Lemma py_max_pick a z :
  py_max (Int a) (Int z) = Int a \/ py_max (Int a) (Int z) = Int z.
Proof. unfold py_max. destruct (score_gt _ _); auto. Qed.

Lemma py_min_pick a z :
  py_min (Int a) (Int z) = Int a \/ py_min (Int a) (Int z) = Int z.
Proof. unfold py_min. destruct (score_gt _ _); auto. Qed.

Lemma opponent_not_blank symbol : (opponent_of symbol =? " ")%string = false.
Proof. unfold opponent_of. destruct (symbol =? "X")%string; reflexivity. Qed.

(** With that budget [_minimax] returns an int and the board it was given.
    When the depth and the blank cells together fit the nine cells, the
    score is at most [10 - depth], and below it unless [symbol] has already
    won. *)
Lemma minimax_returns fuel symbol :
  forall depth is_max b,
    is_3x3 b = true -> (search_budget is_max b < fuel)%nat ->
    exists z,
      _minimax fuel symbol depth is_max b = Ok (Int z, b) /\
      (symbol <> " " -> 0 <= depth -> depth + Z.of_nat (empties b) <= 9 ->
       z <= 10 - depth /\
       (forall w, check_winner b = Ok (w, b) -> is_symbol w symbol = false ->
                  z < 10 - depth)).
Proof.
  induction fuel as [|fuel IH]; intros depth is_max b W Hf; [lia|].
  cbn [_minimax].
  destruct (returns_check_winner b W) as [w Hw].
  rewrite (bind_step _ _ _ _ _ Hw).
  destruct (is_symbol w symbol) eqn:Es.
  { eexists. split; [reflexivity|]. intros _ _ _. split; [lia|].
    intros w' Hw'. rewrite Hw in Hw'. injection Hw' as <-. congruence. }
  destruct (truthy w) eqn:Et.
  { eexists. split; [reflexivity|]. intros _ Hd He. split; lia. }
  rewrite (bind_step _ _ _ _ _ (is_full_spec b)).
  destruct (Nat.eqb (empties b) 0) eqn:Ee.
  { eexists. split; [reflexivity|]. intros _ Hd He. split; lia. }
  apply Nat.eqb_neq in Ee.
  set (P := fun z : Z =>
              symbol <> " " -> 0 <= depth ->
              depth + Z.of_nat (empties b) <= 9 -> z <= 10 - (depth + 1)).
  assert (Hend : forall z, P z ->
            symbol <> " " -> 0 <= depth ->
            depth + Z.of_nat (empties b) <= 9 ->
            z <= 10 - depth /\
            (forall w, check_winner b = Ok (w, b) ->
                       is_symbol w symbol = false -> z < 10 - depth)).
  { intros z Pz Hs Hd He. specialize (Pz Hs Hd He). split; [lia|].
    intros; lia. }
  destruct is_max.
  - destruct (scan_returns py_max NegInf symbol
                (_minimax fuel symbol (depth + 1) false) P b W Ee
                py_max_init py_max_pick) as (z & Hz & Pz).
    + intros i j b1 Hi Hj Hc Hs W1.
      destruct (set_cell_3x3 i j symbol b W Hi Hj)
        as (b1' & Hs' & _ & _ & _ & Hcount).
      rewrite Hs in Hs'. injection Hs' as <-. specialize (Hcount Hc).
      destruct (IH (depth + 1) false b1 W1) as (z & Hz & Hb).
      { unfold search_budget in *.
        destruct (symbol =? " ")%string; simpl in Hcount; lia. }
      exists z. split; [exact Hz|].
      intros Hsym Hd He.
      apply String.eqb_neq in Hsym as Hsym'. rewrite Hsym' in Hcount.
      simpl in Hcount. apply Hb; [exact Hsym|lia|lia].
    + exists z. split; [exact Hz|]. apply Hend. exact Pz.
  - destruct (scan_returns py_min PosInf (opponent_of symbol)
                (_minimax fuel symbol (depth + 1) true) P b W Ee
                py_min_init py_min_pick) as (z & Hz & Pz).
    + intros i j b1 Hi Hj Hc Hs W1.
      destruct (set_cell_3x3 i j (opponent_of symbol) b W Hi Hj)
        as (b1' & Hs' & _ & _ & _ & Hcount).
      rewrite Hs in Hs'. injection Hs' as <-. specialize (Hcount Hc).
      rewrite opponent_not_blank in Hcount. simpl in Hcount.
      destruct (IH (depth + 1) true b1 W1) as (z & Hz & Hb).
      { unfold search_budget in *. lia. }
      exists z. split; [exact Hz|].
      intros Hsym Hd He. apply Hb; [exact Hsym|lia|lia].
    + exists z. split; [exact Hz|]. apply Hend. exact Pz.
Qed.

(** ** The move [get_move] picks *)

Lemma move_scores_fun fuel symbol b i j z z' :
  move_scores fuel symbol b i j z -> move_scores fuel symbol b i j z' ->
  z = z'.
Proof. intros [b1 H1] [b2 H2]. congruence. Qed.

Lemma move_scores_blank fuel symbol b i j :
  is_3x3 b = true -> (20 <= fuel)%nat -> 0 <= i < 3 -> 0 <= j < 3 ->
  exists b1 z,
    set_cell i j symbol b = Ok (tt, b1) /\ is_3x3 b1 = true /\
    _minimax fuel symbol 0 false b1 = Ok (Int z, b1) /\
    move_scores fuel symbol b i j z.
Proof.
  intros W Hf Hi Hj.
  destruct (set_cell_3x3 i j symbol b W Hi Hj) as (b1 & Hs & W1 & _).
  destruct (minimax_returns fuel symbol 0 false b1 W1) as (z & Hz & _).
  { pose proof (empties_le_9 b1 W1). unfold search_budget. lia. }
  exists b1, z. repeat split; auto.
  exists b1. rewrite (bind_step _ _ _ _ _ Hs). exact Hz.
Qed.

(** On a board with a blank cell [get_move] returns the first blank cell,
    in scan order, whose score no other blank cell exceeds, and leaves the
    board as it was. *)
Lemma get_move_spec fuel symbol b :
  is_3x3 b = true -> (20 <= fuel)%nat -> empties b <> 0%nat ->
  exists i j z,
    get_move fuel symbol b = Ok (Some (i, j), b) /\
    0 <= i < 3 /\ 0 <= j < 3 /\
    get_cell i j b = Ok (" ", b) /\
    move_scores fuel symbol b i j z /\
    forall i' j', 0 <= i' < 3 -> 0 <= j' < 3 ->
      get_cell i' j' b = Ok (" ", b) ->
      exists z', move_scores fuel symbol b i' j' z' /\ z' <= z /\
                 (scanned_before i' j' i j -> z' < z).
Proof.
  intros W Hf Hne. unfold get_move.
  set (I := fun (k : nat) (st : Score * option (Z * Z)) =>
    match snd st with
    | None =>
        fst st = NegInf /\
        forall k' i j, (k' < k)%nat -> nth_error cells k' = Some (i, j) ->
                       get_cell i j b <> Ok (" ", b)
    | Some (i, j) =>
        exists kb z,
          (kb < k)%nat /\ nth_error cells kb = Some (i, j) /\
          get_cell i j b = Ok (" ", b) /\ fst st = Int z /\
          move_scores fuel symbol b i j z /\
          forall k' i' j' z', (k' < k)%nat ->
            nth_error cells k' = Some (i', j') ->
            get_cell i' j' b = Ok (" ", b) ->
            move_scores fuel symbol b i' j' z' ->
            z' <= z /\ ((k' < kb)%nat -> z' < z)
    end).
  assert (Hloop : exists st,
    for_each range3 (fun i st =>
      for_each range3 (fun j st =>
        c <- get_cell i j ;;
        if (c =? " ")%string then
          set_cell i j symbol ;;;
          score <- _minimax fuel symbol 0 false ;;
          set_cell i j " " ;;;
          if score_gt score (fst st) then ret (score, Some (i, j))
          else ret st
        else ret st) st) (NegInf, None) b = Ok (st, b) /\ I 9%nat st).
  { rewrite for_each_nested. change (list_prod range3 range3) with cells.
    match goal with
    | |- context [for_each cells ?body _ b] =>
      apply (for_each_inv cells body b I (NegInf, None))
    end.
    - unfold I. simpl. split; [reflexivity|]. intros; lia.
    - intros k [i j] st Hk HI. cbn [fst snd].
      destruct (cells_nth _ _ _ Hk) as (_ & Hi & Hj & _).
      destruct (get_cell_3x3 i j b W Hi Hj) as [c Hc].
      destruct (c =? " ")%string eqn:Ec.
      + apply String.eqb_eq in Ec. subst c.
        destruct (move_scores_blank fuel symbol b i j W Hf Hi Hj)
          as (b1 & z & Hs & W1 & Hz & Hsc).
        rewrite (try_blank i j symbol (_minimax fuel symbol 0 false)
                   (fun score => if score_gt score (fst st)
                                 then ret (score, Some (i, j)) else ret st)
                   (ret st) b b1 (Int z) Hc Hs W1 Hi Hj Hz).
        unfold I in HI. destruct st as [best [[bi bj]|]]; simpl in HI.
        * destruct HI as (kb & zb & Hkb & Hnb & Hcb & -> & Hscb & Hall).
          simpl. destruct (zb <? z) eqn:Elt.
          -- apply Z.ltb_lt in Elt. eexists. split; [reflexivity|].
             unfold I. simpl. exists k, z. repeat split; auto.
             ++ destruct (Nat.eq_dec k' k) as [-> | Hd].
                ** rewrite Hk in H0. injection H0 as <- <-.
                   rewrite (move_scores_fun _ _ _ _ _ _ _ H2 Hsc). lia.
                ** destruct (Hall k' i' j' z') as [? _]; auto; lia.
             ++ intros Hlt.
                destruct (Hall k' i' j' z') as [? _]; auto; lia.
          -- apply Z.ltb_ge in Elt. eexists. split; [reflexivity|].
             unfold I. simpl. exists kb, zb. repeat split; auto.
             ++ destruct (Nat.eq_dec k' k) as [-> | Hd].
                ** rewrite Hk in H0. injection H0 as <- <-.
                   rewrite (move_scores_fun _ _ _ _ _ _ _ H2 Hsc). lia.
                ** destruct (Hall k' i' j' z') as [? _]; auto; lia.
             ++ intros Hlt.
                destruct (Hall k' i' j' z') as [_ ?]; auto; lia.
        * destruct HI as [-> Hnone]. simpl.
          eexists. split; [reflexivity|].
          unfold I. simpl. exists k, z. repeat split; auto.
          -- destruct (Nat.eq_dec k' k) as [-> | Hd].
             ++ rewrite Hk in H0. injection H0 as <- <-.
                rewrite (move_scores_fun _ _ _ _ _ _ _ H2 Hsc). lia.
             ++ exfalso. apply (Hnone k' i' j'); auto. lia.
          -- intros Hlt. exfalso. apply (Hnone k' i' j'); auto.
      + rewrite (try_filled i j symbol (_minimax fuel symbol 0 false)
                   (fun score => if score_gt score (fst st)
                                 then ret (score, Some (i, j)) else ret st)
                   (ret st) b c Hc Ec).
        eexists. split; [reflexivity|].
        assert (Hnb : get_cell i j b <> Ok (" ", b)).
        { rewrite Hc. intros H. injection H as ->. discriminate. }
        unfold I in *. destruct (snd st) as [[bi bj]|].
        * destruct HI as (kb & zb & Hkb & Hn & Hcb & Hfst & Hscb & Hall).
          exists kb, zb. repeat split; auto.
          -- destruct (Nat.eq_dec k' k) as [-> | Hd].
             ++ rewrite Hk in H0. injection H0 as <- <-. contradiction.
             ++ destruct (Hall k' i' j' z') as [? _]; auto; lia.
          -- destruct (Nat.eq_dec k' k) as [-> | Hd].
             ++ rewrite Hk in H0. injection H0 as <- <-. contradiction.
             ++ intros Hlt. destruct (Hall k' i' j' z') as [_ ?]; auto; lia.
        * destruct HI as [Hfst Hnone]. split; [exact Hfst|].
          intros k' i' j' Hk' Hn.
          destruct (Nat.eq_dec k' k) as [-> | Hd].
          -- rewrite Hk in Hn. injection Hn as <- <-. exact Hnb.
          -- apply (Hnone k' i' j'); [lia|exact Hn]. }
  destruct Hloop as (st & Eloop & HI).
  rewrite (bind_step _ _ _ _ _ Eloop). unfold ret.
  unfold I in HI. destruct (snd st) as [[i j]|].
  - destruct HI as (kb & z & Hkb & Hn & Hc & Hfst & Hsc & Hall).
    destruct (cells_nth _ _ _ Hn) as (_ & Hi & Hj & Hrank).
    exists i, j, z. repeat split; try assumption; try lia.
    intros i' j' Hi' Hj' Hc'.
    destruct (move_scores_blank fuel symbol b i' j' W Hf Hi' Hj')
      as (b1 & z' & _ & _ & _ & Hsc').
    exists z'. split; [exact Hsc'|].
    pose proof (cells_at i' j' Hi' Hj') as Hn'.
    assert (Hk' : (Z.to_nat (3 * i' + j') < 9)%nat) by lia.
    destruct (Hall _ i' j' z' Hk' Hn' Hc' Hsc') as [Hle Hlt].
    split; [exact Hle|].
    intros Hb. apply Hlt. unfold scanned_before in Hb. lia.
  - exfalso. destruct HI as [_ Hnone].
    destruct (blank_cell b W Hne) as (k & i & j & Hk & Hc).
    apply (Hnone k i j); [|exact Hk|exact Hc].
    apply cells_nth in Hk. lia.
Qed.

(** On a board without a blank cell the scan of [get_move] tries nothing and
    the initial [best_move = None] is returned. *)
Lemma get_move_full fuel symbol b :
  is_3x3 b = true -> empties b = 0%nat ->
  get_move fuel symbol b = Ok (None, b).
Proof.
  intros W He. unfold get_move.
  assert (Hfilled : forall i j c, 0 <= i < 3 -> 0 <= j < 3 ->
            get_cell i j b = Ok (c, b) -> (c =? " ")%string = false).
  { pose proof W as W'. grid9 W'. unfold empties in He. simpl in He.
    intros i j c Hi Hj Hc.
    in_range3 i j; injection Hc as <-;
      match goal with |- ?x = false => destruct x; [simpl in He; lia|reflexivity] end. }
  assert (Hloop : exists st,
    for_each range3 (fun i st =>
      for_each range3 (fun j st =>
        c <- get_cell i j ;;
        if (c =? " ")%string then
          set_cell i j symbol ;;;
          score <- _minimax fuel symbol 0 false ;;
          set_cell i j " " ;;;
          if score_gt score (fst st) then ret (score, Some (i, j))
          else ret st
        else ret st) st) (NegInf, None) b = Ok (st, b)
    /\ (fun (_ : nat) st => st = (NegInf, @None (Z * Z))) 9%nat st).
  { rewrite for_each_nested. change (list_prod range3 range3) with cells.
    match goal with
    | |- context [for_each cells ?body _ b] =>
      apply (for_each_inv cells body b
               (fun _ st => st = (NegInf, @None (Z * Z))) (NegInf, None))
    end.
    - reflexivity.
    - intros k [i j] st Hk ->. cbn [fst snd].
      destruct (cells_nth _ _ _ Hk) as (_ & Hi & Hj & _).
      destruct (get_cell_3x3 i j b W Hi Hj) as [c Hc].
      rewrite (bind_step _ _ _ _ _ Hc).
      rewrite (Hfilled i j c Hi Hj Hc).
      eexists. split; reflexivity. }
  destruct Hloop as (st & E & ->).
  rewrite (bind_step _ _ _ _ _ E). reflexivity.
Qed.

(** Writing into a cell the value it holds changes nothing. *)
Lemma set_cell_same i j c b b0 u b' :
  get_cell i j b = Ok (c, b0) -> set_cell i j c b = Ok (u, b') -> b' = b.
Proof.
  intros Hg Hs.
  apply get_cell_ok in Hg as (_ & ki & kj & row & Hki & Hrow & Hkj & Hc).
  apply set_cell_ok in Hs as (ki1 & kj1 & row1 & Hki1 & Hrow1 & Hkj1 & ->).
  assert (ki1 = ki) by congruence. subst ki1.
  assert (row1 = row) by congruence. subst row1.
  assert (kj1 = kj) by congruence. subst kj1.
  rewrite (replace_nth_id row kj c Hc).
  rewrite (replace_nth_id (grid b) ki row Hrow).
  destruct b; reflexivity.
Qed.

(** ** Which line [check_winner] reports *)

Lemma three_equal_run ea eb ec b a x c :
  ea b = Ok (a, b) -> eb b = Ok (x, b) -> ec b = Ok (c, b) ->
  three_equal ea eb ec b = Ok (line3 a x c, b).
Proof.
  intros Ha Hb Hc. unfold three_equal, line3.
  rewrite (bind_step _ _ _ _ _ Ha), (bind_step _ _ _ _ _ Hb).
  destruct (a =? x)%string; [|reflexivity].
  rewrite (bind_step _ _ _ _ _ Hc). reflexivity.
Qed.

Lemma line_check_run ea eb ec b a x c :
  ea b = Ok (a, b) -> eb b = Ok (x, b) -> ec b = Ok (c, b) ->
  (t <- three_equal ea eb ec ;;
   if t then w <- ea ;; ret (Some w) else ret None) b
  = Ok (if line3 a x c then Some a else None, b).
Proof.
  intros Ha Hb Hc.
  rewrite (bind_step _ _ _ _ _ (three_equal_run _ _ _ _ _ _ _ Ha Hb Hc)).
  destruct (line3 a x c); [|reflexivity].
  rewrite (bind_step _ _ _ _ _ Ha). reflexivity.
Qed.

Lemma check_winner_lines c00 c01 c02 c10 c11 c12 c20 c21 c22 n :
  let b := mkBoard [[c00; c01; c02]; [c10; c11; c12]; [c20; c21; c22]] n in
  check_winner b
  = Ok (first_line (lines_of c00 c01 c02 c10 c11 c12 c20 c21 c22), b).
Proof.
  intros b. unfold check_winner.
  rewrite (bind_step get_grid _ b (grid b) b eq_refl).
  change (grid b) with [[c00; c01; c02]; [c10; c11; c12]; [c20; c21; c22]].
  unfold lines_of. cbn [first_line].
  match goal with
  | |- bind (for_return ?l ?body) _ b = _ =>
    assert (Hrows : for_return l body b
                    = Ok (first_line [(c00, c01, c02); (c10, c11, c12);
                                      (c20, c21, c22)], b))
  end.
  { cbn [for_return first_line].
    rewrite (bind_step _ _ _ _ _
      (line_check_run (lift (index [c00; c01; c02] 0))
         (lift (index [c00; c01; c02] 1)) (lift (index [c00; c01; c02] 2))
         b c00 c01 c02 eq_refl eq_refl eq_refl)).
    destruct (line3 c00 c01 c02); [reflexivity|].
    rewrite (bind_step _ _ _ _ _
      (line_check_run (lift (index [c10; c11; c12] 0))
         (lift (index [c10; c11; c12] 1)) (lift (index [c10; c11; c12] 2))
         b c10 c11 c12 eq_refl eq_refl eq_refl)).
    destruct (line3 c10 c11 c12); [reflexivity|].
    rewrite (bind_step _ _ _ _ _
      (line_check_run (lift (index [c20; c21; c22] 0))
         (lift (index [c20; c21; c22] 1)) (lift (index [c20; c21; c22] 2))
         b c20 c21 c22 eq_refl eq_refl eq_refl)).
    destruct (line3 c20 c21 c22); reflexivity. }
  rewrite (bind_step _ _ _ _ _ Hrows). clear Hrows. cbn [first_line].
  destruct (line3 c00 c01 c02); [reflexivity|].
  destruct (line3 c10 c11 c12); [reflexivity|].
  destruct (line3 c20 c21 c22); [reflexivity|].
  match goal with
  | |- bind (for_return ?l ?body) _ b = _ =>
    assert (Hcols : for_return l body b
                    = Ok (first_line [(c00, c10, c20); (c01, c11, c21);
                                      (c02, c12, c22)], b))
  end.
  { unfold range3. cbn [for_return first_line].
    rewrite (bind_step _ _ _ _ _
      (line_check_run (get_cell 0 0) (get_cell 1 0) (get_cell 2 0)
         b c00 c10 c20 eq_refl eq_refl eq_refl)).
    destruct (line3 c00 c10 c20); [reflexivity|].
    rewrite (bind_step _ _ _ _ _
      (line_check_run (get_cell 0 1) (get_cell 1 1) (get_cell 2 1)
         b c01 c11 c21 eq_refl eq_refl eq_refl)).
    destruct (line3 c01 c11 c21); [reflexivity|].
    rewrite (bind_step _ _ _ _ _
      (line_check_run (get_cell 0 2) (get_cell 1 2) (get_cell 2 2)
         b c02 c12 c22 eq_refl eq_refl eq_refl)).
    destruct (line3 c02 c12 c22); reflexivity. }
  rewrite (bind_step _ _ _ _ _ Hcols). clear Hcols. cbn [first_line].
  destruct (line3 c00 c10 c20); [reflexivity|].
  destruct (line3 c01 c11 c21); [reflexivity|].
  destruct (line3 c02 c12 c22); [reflexivity|].
  rewrite (bind_step _ _ _ _ _
    (three_equal_run (get_cell 0 0) (get_cell 1 1) (get_cell 2 2) b
       c00 c11 c22 eq_refl eq_refl eq_refl)).
  destruct (line3 c00 c11 c22); [reflexivity|].
  rewrite (bind_step _ _ _ _ _
    (three_equal_run (get_cell 0 2) (get_cell 1 1) (get_cell 2 0) b
       c02 c11 c20 eq_refl eq_refl eq_refl)).
  destruct (line3 c02 c11 c20); reflexivity.
Qed.

Lemma line3_true a b c :
  line3 a b c = true -> a = b /\ b = c /\ c <> " ".
Proof.
  unfold line3. intros H.
  apply andb_prop in H as [H1 H]. apply andb_prop in H as [H2 H3].
  apply String.eqb_eq in H1, H2. apply negb_true_iff in H3.
  apply String.eqb_neq in H3. auto.
Qed.

Lemma first_line_some lines w :
  first_line lines = Some w ->
  w <> " " /\ exists b c, In (w, b, c) lines.
Proof.
  induction lines as [|[[a b] c] rest IH]; simpl; [discriminate|].
  destruct (line3 a b c) eqn:E.
  - intros H. injection H as <-.
    apply line3_true in E as (-> & -> & Hc). split; [exact Hc|].
    exists c, c. left. reflexivity.
  - intros H. destruct (IH H) as (Hw & b' & c' & Hin).
    split; [exact Hw|]. exists b', c'. right. exact Hin.
Qed.

(** [check_winner] never reports the blank. *)
Lemma check_winner_not_blank b w b' :
  is_3x3 b = true -> check_winner b = Ok (Some w, b') -> w <> " ".
Proof.
  intros W. grid9 W. rewrite check_winner_lines. intros H.
  injection H as H _.
  apply (first_line_some
           (lines_of c00 c01 c02 c10 c11 c12 c20 c21 c22)) in H. tauto.
Qed.

(** ** The functional reading agrees with the methods *)

Lemma cell_str_blank c : (cell_str c =? " ")%string = is_blank c.
Proof. destruct c; reflexivity. Qed.

Lemma cell_line_str a b c :
  line3 (cell_str a) (cell_str b) (cell_str c) = cell_line a b c.
Proof. destruct a, b, c; reflexivity. Qed.

Lemma to_board_3x3 p n : is_3x3 (to_board p n) = true.
Proof. destruct p; reflexivity. Qed.

Lemma get_cell_to_board p n i j :
  0 <= i < 3 -> 0 <= j < 3 ->
  get_cell i j (to_board p n)
  = Ok (cell_str (cell_at p i j), to_board p n).
Proof. intros Hi Hj. destruct p. in_range3 i j; reflexivity. Qed.

Lemma set_cell_to_board p n i j v :
  0 <= i < 3 -> 0 <= j < 3 ->
  set_cell i j (cell_str v) (to_board p n)
  = Ok (tt, to_board (with_cell p i j v) n).
Proof. intros Hi Hj. destruct p. in_range3 i j; reflexivity. Qed.

Lemma check_winner_to_board p n :
  check_winner (to_board p n)
  = Ok (option_map cell_str (cell_winner p), to_board p n).
Proof.
  destruct p as [c00 c01 c02 c10 c11 c12 c20 c21 c22].
  unfold to_board.
  pose proof (check_winner_lines (cell_str c00) (cell_str c01) (cell_str c02)
                (cell_str c10) (cell_str c11) (cell_str c12)
                (cell_str c20) (cell_str c21) (cell_str c22) n) as E.
  cbv zeta in E. rewrite E. clear E. f_equal. f_equal.
  unfold lines_of, cell_winner. cbn [first_line].
  rewrite !cell_line_str.
  repeat match goal with
         | |- context [cell_line ?a ?b ?c] =>
           destruct (cell_line a b c); [reflexivity|]
         end.
  reflexivity.
Qed.

Lemma is_full_to_board p n :
  is_full (to_board p n) = Ok (cells_full p, to_board p n).
Proof.
  destruct p as [c00 c01 c02 c10 c11 c12 c20 c21 c22].
  unfold is_full, bind, get_grid, ret, to_board, cells_full.
  cbn [grid forallb]. rewrite !cell_str_blank. do 2 f_equal.
  repeat match goal with
         | |- context [is_blank ?c] => destruct (is_blank c)
         end; reflexivity.
Qed.

Lemma is_symbol_str w me :
  is_symbol (Some (cell_str w)) (cell_str me) = cell_eqb w me.
Proof. destruct w, me; reflexivity. Qed.

Lemma opponent_of_str me :
  opponent_of (cell_str me) = cell_str (cell_opponent me).
Proof. destruct me; reflexivity. Qed.

(** A loop whose iterations return a function of the local variables. *)
Lemma for_each_fold {A St} (l : list A) (body : A -> St -> M St) (b : Board)
      (f : St -> A -> St) :
  (forall x acc, In x l -> body x acc b = Ok (f acc x, b)) ->
  forall acc, for_each l body acc b = Ok (fold_left f l acc, b).
Proof.
  induction l as [|x l IH]; intros Hb acc; simpl; [reflexivity|].
  rewrite (bind_step _ _ _ _ _ (Hb x acc (or_introl eq_refl))).
  apply IH. intros y acc' Hy. apply Hb. right. exact Hy.
Qed.

Lemma cells_in i j : In (i, j) cells -> 0 <= i < 3 /\ 0 <= j < 3.
Proof.
  intros H. apply In_nth_error in H as [k Hk].
  apply cells_nth in Hk. tauto.
Qed.

(** The scan of [_minimax] on the board of [p] is [scan_cells] on [p],
    provided the scoring method agrees with [score] on the boards tried. *)
Lemma scan_to_board pick init v (m : M Score) score p n :
  (forall i j, 0 <= i < 3 -> 0 <= j < 3 ->
     is_blank (cell_at p i j) = true ->
     m (to_board (with_cell p i j v) n)
     = Ok (score (with_cell p i j v), to_board (with_cell p i j v) n)) ->
  for_each range3 (fun i best =>
    for_each range3 (fun j best =>
      c <- get_cell i j ;;
      if (c =? " ")%string then
        set_cell i j (cell_str v) ;;;
        x <- m ;;
        let best := pick best x in
        set_cell i j " " ;;;
        ret best
      else ret best) best) init (to_board p n)
  = Ok (scan_cells pick init v score p, to_board p n).
Proof.
  intros Hm. rewrite for_each_nested.
  change (list_prod range3 range3) with cells. unfold scan_cells.
  apply (for_each_fold cells _ (to_board p n)
           (fun best ij =>
              if is_blank (cell_at p (fst ij) (snd ij))
              then pick best (score (with_cell p (fst ij) (snd ij) v))
              else best)).
  intros [i j] acc Hin. cbn [fst snd].
  destruct (cells_in i j Hin) as [Hi Hj].
  pose proof (get_cell_to_board p n i j Hi Hj) as Hc.
  destruct (is_blank (cell_at p i j)) eqn:Eb.
  - assert (Hstr : cell_str (cell_at p i j) = " ")
      by (destruct (cell_at p i j); [reflexivity|discriminate|discriminate]).
    rewrite Hstr in Hc.
    rewrite (try_blank i j (cell_str v) m (fun x => ret (pick acc x))
               (ret acc) (to_board p n) (to_board (with_cell p i j v) n)
               (score (with_cell p i j v)) Hc
               (set_cell_to_board p n i j v Hi Hj)
               (to_board_3x3 _ _) Hi Hj (Hm i j Hi Hj Eb)).
    reflexivity.
  - rewrite (try_filled i j (cell_str v) m (fun x => ret (pick acc x))
               (ret acc) (to_board p n) _ Hc).
    + reflexivity.
    + rewrite cell_str_blank. exact Eb.
Qed.

Lemma minimax_to_board fuel me :
  forall depth is_max p n,
    (search_budget is_max (to_board p n) < fuel)%nat ->
    _minimax fuel (cell_str me) depth is_max (to_board p n)
    = Ok (minimax_cells fuel me depth is_max p, to_board p n).
Proof.
  induction fuel as [|fuel IH]; intros depth is_max p n Hf; [lia|].
  cbn [_minimax minimax_cells].
  rewrite (bind_step _ _ _ _ _ (check_winner_to_board p n)).
  destruct (cell_winner p) as [w|]; cbn [option_map].
  { rewrite is_symbol_str. destruct (cell_eqb w me); [reflexivity|].
    destruct w; reflexivity. }
  unfold is_symbol, truthy.
  rewrite (bind_step _ _ _ _ _ (is_full_to_board p n)).
  destruct (cells_full p); [reflexivity|].
  assert (Hchild : forall v is_max' i j,
             0 <= i < 3 -> 0 <= j < 3 ->
             is_blank (cell_at p i j) = true ->
             (is_max = true -> is_max' = false) ->
             (is_max = false -> is_max' = true /\ is_blank v = false) ->
             _minimax fuel (cell_str me) (depth + 1) is_max'
                      (to_board (with_cell p i j v) n)
             = Ok (minimax_cells fuel me (depth + 1) is_max'
                     (with_cell p i j v),
                   to_board (with_cell p i j v) n)).
  { intros v is_max' i j Hi Hj Eb Hmax Hmin. apply IH.
    destruct (set_cell_3x3 i j (cell_str v) (to_board p n)
                (to_board_3x3 p n) Hi Hj) as (b1 & Hs & _ & _ & _ & Hcount).
    rewrite set_cell_to_board in Hs by assumption. injection Hs as <-.
    rewrite get_cell_to_board in Hcount by assumption.
    assert (Hstr : cell_str (cell_at p i j) = " ")
      by (destruct (cell_at p i j); [reflexivity|discriminate|discriminate]).
    rewrite Hstr in Hcount. specialize (Hcount eq_refl).
    rewrite cell_str_blank in Hcount.
    unfold search_budget in *. destruct is_max.
    - rewrite (Hmax eq_refl). destruct (is_blank v); simpl in Hcount; lia.
    - destruct (Hmin eq_refl) as [-> Hv]. rewrite Hv in Hcount.
      simpl in Hcount. lia. }
  destruct is_max.
  - apply scan_to_board. intros i j Hi Hj Eb.
    apply Hchild; try assumption; [reflexivity|discriminate].
  - rewrite opponent_of_str. apply scan_to_board. intros i j Hi Hj Eb.
    apply Hchild; try assumption; [discriminate|].
    intros _. split; [reflexivity|]. destruct me; reflexivity.
Qed.

Lemma get_move_to_board fuel me p n :
  (20 <= fuel)%nat ->
  get_move fuel (cell_str me) (to_board p n)
  = Ok (get_move_cells fuel me p, to_board p n).
Proof.
  intros Hf. unfold get_move, get_move_cells.
  match goal with
  | |- bind ?m _ _ = Ok (snd (fold_left ?f cells ?st0), _) =>
    assert (Hloop : m (to_board p n) = Ok (fold_left f cells st0, to_board p n))
  end.
  { rewrite for_each_nested. change (list_prod range3 range3) with cells.
    apply for_each_fold. intros [i j] st Hin. cbn [fst snd].
    destruct (cells_in i j Hin) as [Hi Hj].
    pose proof (get_cell_to_board p n i j Hi Hj) as Hc.
    destruct (is_blank (cell_at p i j)) eqn:Eb.
    - assert (Hstr : cell_str (cell_at p i j) = " ")
        by (destruct (cell_at p i j); [reflexivity|discriminate|discriminate]).
      rewrite Hstr in Hc.
      rewrite (try_blank i j (cell_str me)
                 (_minimax fuel (cell_str me) 0 false)
                 (fun score => if score_gt score (fst st)
                               then ret (score, Some (i, j)) else ret st)
                 (ret st) (to_board p n) (to_board (with_cell p i j me) n)
                 (minimax_cells fuel me 0 false (with_cell p i j me)) Hc
                 (set_cell_to_board p n i j me Hi Hj)
                 (to_board_3x3 _ _) Hi Hj).
      + destruct (score_gt _ (fst st)); reflexivity.
      + apply minimax_to_board.
        pose proof (empties_le_9 _ (to_board_3x3 (with_cell p i j me) n)).
        unfold search_budget. lia.
    - rewrite (try_filled i j (cell_str me)
                 (_minimax fuel (cell_str me) 0 false)
                 (fun score => if score_gt score (fst st)
                               then ret (score, Some (i, j)) else ret st)
                 (ret st) (to_board p n) _ Hc).
      + reflexivity.
      + rewrite cell_str_blank. exact Eb. }
  rewrite (bind_step _ _ _ _ _ Hloop). reflexivity.
Qed.

(** ** A larger call budget changes nothing *)

Lemma extends_refl {A} (m : M A) : extends m m.
Proof. intros b r H. exact H. Qed.

Lemma extends_bind {A B} (m m' : M A) (k k' : A -> M B) :
  extends m m' -> (forall a, extends (k a) (k' a)) ->
  extends (bind m k) (bind m' k').
Proof.
  intros Hm Hk b [r b'] H. apply bind_ok in H as (a & b1 & H1 & H2).
  rewrite (bind_step _ _ _ _ _ (Hm _ _ H1)). exact (Hk a _ _ H2).
Qed.

Lemma extends_if {A} (c : bool) (m1 m1' m2 m2' : M A) :
  extends m1 m1' -> extends m2 m2' ->
  extends (if c then m1 else m2) (if c then m1' else m2').
Proof. destruct c; auto. Qed.

Lemma extends_for_each {A St} (l : list A) (body body' : A -> St -> M St) :
  (forall x acc, extends (body x acc) (body' x acc)) ->
  forall acc, extends (for_each l body acc) (for_each l body' acc).
Proof.
  intros Hb. induction l as [|x l IH]; intros acc; simpl.
  - apply extends_refl.
  - apply extends_bind; [apply Hb|exact IH].
Qed.

Lemma minimax_fuel_mono symbol fuel :
  forall fuel' depth is_max,
    (fuel <= fuel')%nat ->
    extends (_minimax fuel symbol depth is_max)
            (_minimax fuel' symbol depth is_max).
Proof.
  induction fuel as [|fuel IH]; intros fuel' depth is_max Hle.
  - intros b r H. discriminate.
  - destruct fuel' as [|fuel']; [lia|]. cbn [_minimax].
    apply extends_bind; [apply extends_refl|intros w].
    do 2 (apply extends_if; [apply extends_refl|]).
    apply extends_bind; [apply extends_refl|intros full].
    apply extends_if; [apply extends_refl|].
    apply extends_if.
    + do 2 (apply extends_for_each; intros ? ?).
      apply extends_bind; [apply extends_refl|intros c].
      apply extends_if; [|apply extends_refl].
      apply extends_bind; [apply extends_refl|intros _].
      apply extends_bind; [apply IH; lia|intros v]. apply extends_refl.
    + do 2 (apply extends_for_each; intros ? ?).
      apply extends_bind; [apply extends_refl|intros c].
      apply extends_if; [|apply extends_refl].
      apply extends_bind; [apply extends_refl|intros _].
      apply extends_bind; [apply IH; lia|intros v]. apply extends_refl.
Qed.

Lemma get_move_fuel_mono symbol fuel fuel' :
  (fuel <= fuel')%nat ->
  extends (get_move fuel symbol) (get_move fuel' symbol).
Proof.
  intros Hle. unfold get_move.
  apply extends_bind; [|intro; apply extends_refl].
  do 2 (apply extends_for_each; intros ? ?).
  apply extends_bind; [apply extends_refl|intros c].
  apply extends_if; [|apply extends_refl].
  apply extends_bind; [apply extends_refl|intros _].
  apply extends_bind; [apply minimax_fuel_mono; exact Hle|intros v].
  apply extends_refl.
Qed.

(** ** A whole game between two [AIPlayer]s *)

Lemma is_game_over_to_board p n :
  is_game_over (to_board p n) = Ok (game_over_cells p, to_board p n).
Proof.
  unfold is_game_over, game_over_cells.
  rewrite (bind_step _ _ _ _ _ (check_winner_to_board p n)).
  destruct (cell_winner p) as [w|]; cbn [option_map].
  - destruct w; reflexivity.
  - unfold truthy.
    rewrite (bind_step _ _ _ _ _ (is_full_to_board p n)).
    destruct (cells_full p); reflexivity.
Qed.

Lemma make_move_to_board p n i j me :
  0 <= i < 3 -> 0 <= j < 3 -> is_blank (cell_at p i j) = true ->
  make_move i j (cell_str me) (to_board p n)
  = Ok (true, to_board (with_cell p i j me) n).
Proof.
  intros Hi Hj Eb. unfold make_move, is_valid_move.
  assert (E : (0 <=? i) && (i <? 3) && ((0 <=? j) && (j <? 3)) = true).
  { repeat (apply andb_true_intro; split); lia. }
  rewrite E.
  rewrite (bind_step _ _ _ _ _
             (bind_step _ _ _ _ _ (get_cell_to_board p n i j Hi Hj))).
  unfold ret at 1. rewrite cell_str_blank, Eb.
  rewrite (bind_step _ _ _ _ _ (set_cell_to_board p n i j me Hi Hj)).
  reflexivity.
Qed.

(** What [game_cells] computes with a budget of twenty calls is what the
    controller's loop returns with any budgets at least as large. *)
Lemma game_loop_to_board fuel n r pf :
  (20 <= fuel)%nat ->
  forall t me p turns,
    me <> Blank -> (t <= turns)%nat ->
    game_cells t 20 me p = Some (r, pf) ->
    game_loop turns (AIPlayer fuel "X") (AIPlayer fuel "O")
              (cell_eqb me MarkX) (to_board p n)
    = Ok (r, to_board pf n).
Proof.
  intros Hf. induction t as [|t IH]; intros me p turns Hme Hle Hg;
    [discriminate|].
  destruct turns as [|turns]; [lia|].
  cbn [game_cells] in Hg. cbn [game_loop].
  destruct (get_move_cells 20 me p) as [[i j]|] eqn:Emove; [|discriminate].
  destruct ((0 <=? i) && (i <? 3) && ((0 <=? j) && (j <? 3))
            && is_blank (cell_at p i j)) eqn:Eok; [|discriminate].
  apply andb_prop in Eok as [Er Eb].
  assert (Hr : 0 <= i < 3 /\ 0 <= j < 3).
  { repeat (apply andb_prop in Er as [Er ?]). lia. }
  destruct Hr as [Hi Hj].
  assert (Hturn : play_turn (if cell_eqb me MarkX
                             then AIPlayer fuel "X" else AIPlayer fuel "O")
                            (to_board p n)
                  = Ok (true, to_board (with_cell p i j me) n)).
  { assert (Hsym : (if cell_eqb me MarkX
                    then AIPlayer fuel "X" else AIPlayer fuel "O")
                   = AIPlayer fuel (cell_str me))
      by (destruct me; [congruence|reflexivity|reflexivity]).
    rewrite Hsym. unfold play_turn, AIPlayer. cbn [p_get_move p_symbol].
    assert (Hmove : get_move fuel (cell_str me) (to_board p n)
                    = Ok (Some (i, j), to_board p n)).
    { apply (get_move_fuel_mono (cell_str me) 20 fuel Hf).
      rewrite get_move_to_board by lia. rewrite Emove. reflexivity. }
    rewrite (bind_step _ _ _ _ _ Hmove).
    apply make_move_to_board; assumption. }
  rewrite (bind_step _ _ _ _ _ Hturn).
  rewrite (bind_step _ _ _ _ _ (is_game_over_to_board _ n)).
  cbv zeta in Hg.
  destruct (fst (game_over_cells (with_cell p i j me))).
  - injection Hg as <- <-. reflexivity.
  - assert (Hnext : negb (cell_eqb me MarkX)
                    = cell_eqb (cell_opponent me) MarkX)
      by (destruct me; [congruence|reflexivity|reflexivity]).
    rewrite Hnext. apply (IH (cell_opponent me)); [|lia|exact Hg].
    destruct me; discriminate.
Qed.

(** ** Placing a symbol *)

Lemma is_valid_move_3x3 row col b :
  is_3x3 b = true ->
  exists v, is_valid_move row col b = Ok (v, b) /\
            (v = true <-> 0 <= row < 3 /\ 0 <= col < 3 /\
                          get_cell row col b = Ok (" ", b)).
Proof.
  intros W. unfold is_valid_move.
  destruct ((0 <=? row) && (row <? 3) && ((0 <=? col) && (col <? 3)))
    eqn:E.
  - assert (Hr : 0 <= row < 3 /\ 0 <= col < 3).
    { repeat (apply andb_prop in E as [E ?]). lia. }
    destruct Hr as [Hrow Hcol].
    destruct (get_cell_3x3 row col b W Hrow Hcol) as [c Hc].
    rewrite (bind_step _ _ _ _ _ Hc). eexists. split; [reflexivity|].
    rewrite Hc. split.
    + intros H. apply String.eqb_eq in H. subst c. auto.
    + intros (_ & _ & H). injection H as ->. reflexivity.
  - exists false. split; [reflexivity|]. split; [discriminate|].
    intros (Hrow & Hcol & _).
    assert (E' : (0 <=? row) && (row <? 3) && ((0 <=? col) && (col <? 3))
                 = true).
    { repeat (apply andb_true_intro; split); lia. }
    congruence.
Qed.

Lemma is_valid_move_outside row col b :
  ~ (0 <= row < 3 /\ 0 <= col < 3) ->
  is_valid_move row col b = Ok (false, b).
Proof.
  intros Hout. unfold is_valid_move.
  destruct ((0 <=? row) && (row <? 3) && ((0 <=? col) && (col <? 3)))
    eqn:E; [|reflexivity].
  exfalso. apply Hout. repeat (apply andb_prop in E as [E ?]). lia.
Qed.

Lemma make_move_3x3 row col symbol b :
  is_3x3 b = true ->
  exists v,
    is_valid_move row col b = Ok (v, b) /\
    (v = true ->
     exists b', make_move row col symbol b = Ok (true, b') /\
                is_3x3 b' = true /\
                get_cell row col b' = Ok (symbol, b') /\
                forall i j c, 0 <= i < 3 -> 0 <= j < 3 ->
                              (i, j) <> (row, col) ->
                              get_cell i j b = Ok (c, b) ->
                              get_cell i j b' = Ok (c, b')) /\
    (v = false -> make_move row col symbol b = Ok (false, b)).
Proof.
  intros W. destruct (is_valid_move_3x3 row col b W) as (v & Hv & Hiff).
  exists v. split; [exact Hv|]. unfold make_move.
  rewrite (bind_step _ _ _ _ _ Hv). split; intros ->; [|reflexivity].
  destruct Hiff as [Hiff _]. destruct (Hiff eq_refl) as (Hrow & Hcol & Hc).
  destruct (set_cell_3x3 row col symbol b W Hrow Hcol)
    as (b' & Hs & W' & Hget & Hother & _).
  exists b'. rewrite (bind_step _ _ _ _ _ Hs).
  split; [reflexivity|]. split; [exact W'|]. split; [exact Hget|].
  intros i j c Hi Hj Hne Hcell. apply Hother; assumption.
Qed.

(** * The claims *)

(** C1.  On a 3x3 board with a blank cell and no result yet, if writing
    [symbol] into some blank cell makes [check_winner] report [symbol], then
    [get_move] returns a blank cell with that property; and on the board
    with X at (0,0), (0,1) and O at (1,0), (1,1) the move for X is (0,2). *)
Theorem get_move_takes_immediate_win :
  (forall fuel symbol b,
      is_3x3 b = true -> (20 <= fuel)%nat ->
      is_full b = Ok (false, b) ->
      is_game_over b = Ok ((false, None), b) ->
      (exists i j b1, 0 <= i < 3 /\ 0 <= j < 3 /\
                      get_cell i j b = Ok (" ", b) /\
                      set_cell i j symbol b = Ok (tt, b1) /\
                      check_winner b1 = Ok (Some symbol, b1)) ->
      exists i j b1, get_move fuel symbol b = Ok (Some (i, j), b) /\
                     get_cell i j b = Ok (" ", b) /\
                     set_cell i j symbol b = Ok (tt, b1) /\
                     check_winner b1 = Ok (Some symbol, b1)) /\
  get_move 20 "X" two_in_a_row = Ok (Some (0, 2), two_in_a_row).
Proof.
  split; [|vm_compute; reflexivity].
  intros fuel symbol b W Hf Hfull _ (iw & jw & bw & Hiw & Hjw & Hcw & Hsw & Hww).
  assert (Hne : empties b <> 0%nat).
  { rewrite is_full_spec in Hfull. injection Hfull as Hfull.
    apply Nat.eqb_neq. exact Hfull. }
  assert (Hsym : symbol <> " ").
  { destruct (set_cell_3x3 iw jw symbol b W Hiw Hjw) as (b1 & Hs & W1 & _).
    rewrite Hsw in Hs. injection Hs as <-.
    exact (check_winner_not_blank _ _ _ W1 Hww). }
  destruct (get_move_spec fuel symbol b W Hf Hne)
    as (i & j & z & Hmove & Hi & Hj & Hc & Hsc & Hbest).
  (* the winning move scores 10 *)
  destruct (Hbest iw jw Hiw Hjw Hcw) as (zw & [bw' Hscw] & Hle & _).
  rewrite (bind_step _ _ _ _ _ Hsw) in Hscw.
  assert (Hfuel : exists fuel', fuel = S fuel')
    by (destruct fuel; [lia|eauto]).
  destruct Hfuel as [fuel' ->].
  cbn [_minimax] in Hscw. rewrite (bind_step _ _ _ _ _ Hww) in Hscw.
  unfold is_symbol in Hscw. rewrite String.eqb_refl in Hscw.
  injection Hscw as Hzw _.
  (* so the chosen move scores at least 10, which only a win does *)
  destruct (set_cell_3x3 i j symbol b W Hi Hj)
    as (b1 & Hs & W1 & _ & _ & Hcount).
  specialize (Hcount Hc).
  apply String.eqb_neq in Hsym as Hsym'. rewrite Hsym' in Hcount.
  simpl in Hcount.
  destruct (minimax_returns (S fuel') symbol 0 false b1 W1)
    as (z1 & Hz1 & Hbound).
  { pose proof (empties_le_9 b W). unfold search_budget. lia. }
  destruct Hsc as [b1' Hsc]. rewrite (bind_step _ _ _ _ _ Hs) in Hsc.
  rewrite Hz1 in Hsc. injection Hsc as Hzz _. subst z1.
  destruct Hbound as [_ Hstrict];
    [exact Hsym|lia|pose proof (empties_le_9 b W); lia|].
  destruct (returns_check_winner b1 W1) as [w Hw].
  exists i, j, b1. repeat split; auto.
  destruct (is_symbol w symbol) eqn:Ew.
  - destruct w as [w|]; [|discriminate]. simpl in Ew.
    apply String.eqb_eq in Ew. subst w. exact Hw.
  - specialize (Hstrict w Hw Ew). lia.
Qed.

Lemma get_move_takes_immediate_win_witness :
  exists i j b1,
    get_move 20 "X" two_in_a_row = Ok (Some (i, j), two_in_a_row) /\
    get_cell i j two_in_a_row = Ok (" ", two_in_a_row) /\
    set_cell i j "X" two_in_a_row = Ok (tt, b1) /\
    check_winner b1 = Ok (Some "X", b1).
Proof.
  apply (proj1 get_move_takes_immediate_win 20%nat "X" two_in_a_row).
  - reflexivity.
  - lia.
  - reflexivity.
  - reflexivity.
  - exists 0, 2,
      (board_of [["X"; "X"; "X"]; ["O"; "O"; " "]; [" "; " "; " "]]).
    repeat split; try lia; reflexivity.
Defined.

(** C3.  Whenever [get_move] or [_minimax] returns, on any board, for any
    symbol and any call budget, the board is the one the call was entered
    with; and on a 3x3 board with a budget of twenty nested calls both do
    return. *)
Theorem search_restores_board fuel symbol b :
  (forall mv b', get_move fuel symbol b = Ok (mv, b') -> b' = b) /\
  (forall depth is_max s b',
      _minimax fuel symbol depth is_max b = Ok (s, b') -> b' = b) /\
  (is_3x3 b = true -> (20 <= fuel)%nat ->
   (exists mv, get_move fuel symbol b = Ok (mv, b)) /\
   (forall depth is_max,
       exists z, _minimax fuel symbol depth is_max b = Ok (Int z, b))).
Proof.
  split; [|split].
  - intros mv b' H. exact (preserves_get_move fuel symbol b mv b' H).
  - intros depth is_max s b' H.
    exact (preserves_minimax fuel symbol depth is_max b s b' H).
  - intros W Hf. split.
    + destruct (Nat.eq_dec (empties b) 0) as [He|He].
      * exists None. apply get_move_full; assumption.
      * destruct (get_move_spec fuel symbol b W Hf He)
          as (i & j & z & H & _).
        exists (Some (i, j)). exact H.
    + intros depth is_max.
      destruct (minimax_returns fuel symbol depth is_max b W)
        as (z & Hz & _).
      { pose proof (empties_le_9 b W). unfold search_budget.
        destruct is_max; lia. }
      exists z. exact Hz.
Qed.

Lemma search_restores_board_witness :
  (exists mv, get_move 20 "X" two_in_a_row = Ok (mv, two_in_a_row)) /\
  (forall depth is_max,
      exists z, _minimax 20 "X" depth is_max two_in_a_row
                = Ok (Int z, two_in_a_row)).
Proof.
  apply (proj2 (proj2 (search_restores_board 20 "X" two_in_a_row))).
  - reflexivity.
  - lia.
Defined.

(** C4.  On a 3x3 board with a blank cell and no result yet, [get_move]
    returns a blank cell whose score no blank cell exceeds and every blank
    cell scanned earlier (row by row, column by column) falls short of; the
    board is left as it was, so a second call returns the same move. *)
Theorem get_move_first_best fuel symbol b :
  is_3x3 b = true -> (20 <= fuel)%nat ->
  is_full b = Ok (false, b) ->
  is_game_over b = Ok ((false, None), b) ->
  exists i j z,
    get_move fuel symbol b = Ok (Some (i, j), b) /\
    0 <= i < 3 /\ 0 <= j < 3 /\
    get_cell i j b = Ok (" ", b) /\
    move_scores fuel symbol b i j z /\
    (forall i' j', 0 <= i' < 3 -> 0 <= j' < 3 ->
       get_cell i' j' b = Ok (" ", b) ->
       exists z', move_scores fuel symbol b i' j' z' /\ z' <= z /\
                  (scanned_before i' j' i j -> z' < z)) /\
    (m1 <- get_move fuel symbol ;; m2 <- get_move fuel symbol ;;
     ret (m1, m2)) b = Ok ((Some (i, j), Some (i, j)), b).
Proof.
  intros W Hf Hfull _.
  assert (Hne : empties b <> 0%nat).
  { rewrite is_full_spec in Hfull. injection Hfull as Hfull.
    apply Nat.eqb_neq. exact Hfull. }
  destruct (get_move_spec fuel symbol b W Hf Hne)
    as (i & j & z & Hmove & Hi & Hj & Hc & Hsc & Hbest).
  exists i, j, z. repeat split; try assumption; try lia.
  rewrite (bind_step _ _ _ _ _ Hmove), (bind_step _ _ _ _ _ Hmove).
  reflexivity.
Qed.

Lemma get_move_first_best_witness :
  exists i j z,
    get_move 20 "O" two_in_a_row = Ok (Some (i, j), two_in_a_row) /\
    0 <= i < 3 /\ 0 <= j < 3 /\
    get_cell i j two_in_a_row = Ok (" ", two_in_a_row) /\
    move_scores 20 "O" two_in_a_row i j z /\
    (forall i' j', 0 <= i' < 3 -> 0 <= j' < 3 ->
       get_cell i' j' two_in_a_row = Ok (" ", two_in_a_row) ->
       exists z', move_scores 20 "O" two_in_a_row i' j' z' /\ z' <= z /\
                  (scanned_before i' j' i j -> z' < z)) /\
    (m1 <- get_move 20 "O" ;; m2 <- get_move 20 "O" ;;
     ret (m1, m2)) two_in_a_row = Ok ((Some (i, j), Some (i, j)), two_in_a_row).
Proof.
  apply (get_move_first_best 20 "O" two_in_a_row).
  - reflexivity.
  - lia.
  - reflexivity.
  - reflexivity.
Defined.

Lemma opponent_is_not_symbol symbol :
  is_symbol (Some (opponent_of symbol)) symbol = false /\
  truthy (Some (opponent_of symbol)) = true.
Proof.
  unfold opponent_of, is_symbol, truthy.
  destruct (symbol =? "X")%string eqn:E.
  - apply String.eqb_eq in E. subst symbol. split; reflexivity.
  - rewrite String.eqb_sym, E. split; reflexivity.
Qed.

(** C5.  With room for this one call only (so that a recursive call would
    raise), [_minimax] returns [10 - depth] when [check_winner] reports the
    searching symbol, [depth - 10] when it reports the opponent's symbol,
    and [0] when it reports nobody and the board is full. *)
Theorem minimax_terminal_scores fuel symbol depth is_max b w :
  check_winner b = Ok (w, b) ->
  (w = Some symbol ->
   _minimax 1 symbol depth is_max b = Ok (Int (10 - depth), b) /\
   _minimax (S fuel) symbol depth is_max b
   = Ok (Int (10 - depth), b)) /\
  (w = Some (opponent_of symbol) ->
   _minimax 1 symbol depth is_max b = Ok (Int (depth - 10), b) /\
   _minimax (S fuel) symbol depth is_max b
   = Ok (Int (depth - 10), b)) /\
  (w = None -> is_full b = Ok (true, b) ->
   _minimax 1 symbol depth is_max b = Ok (Int 0, b) /\
   _minimax (S fuel) symbol depth is_max b = Ok (Int 0, b)).
Proof.
  intros Hw. cbn [_minimax]. rewrite !(bind_step _ _ _ _ _ Hw).
  split; [|split].
  - intros ->. unfold is_symbol. rewrite String.eqb_refl.
    split; reflexivity.
  - intros ->. destruct (opponent_is_not_symbol symbol) as [-> ->].
    split; reflexivity.
  - intros -> Hfull. unfold is_symbol, truthy.
    rewrite !(bind_step _ _ _ _ _ Hfull). split; reflexivity.
Qed.

Lemma minimax_terminal_scores_witness :
  _minimax 1 "O" 3 true x_top_row = Ok (Int (3 - 10), x_top_row) /\
  _minimax 6 "O" 3 true x_top_row = Ok (Int (3 - 10), x_top_row).
Proof.
  apply (proj1 (proj2 (minimax_terminal_scores 5 "O" 3 true x_top_row
                         (Some "X") eq_refl))).
  reflexivity.
Defined.

(** C6 as the specification states it (a call on a finished board raises)
    fails: on the full board without a line [get_move] returns [None], and
    on a board X has already won it returns an ordinary move. *)
Lemma get_move_fail_fast_counterexample :
  (is_game_over full_no_line = Ok ((true, Some "Draw"), full_no_line) /\
   get_move 20 "X" full_no_line = Ok (None, full_no_line) /\
   ~ exists e, get_move 20 "X" full_no_line = Raise e) /\
  (is_game_over x_won_early = Ok ((true, Some "X"), x_won_early) /\
   get_move 20 "O" x_won_early = Ok (Some (1, 2), x_won_early) /\
   ~ exists e, get_move 20 "O" x_won_early = Raise e).
Proof.
  split; (split; [reflexivity|]); (split; [vm_compute; reflexivity|]);
    intros [e H]; vm_compute in H; discriminate.
Qed.

(** C6, amended.  [get_move] never raises on a 3x3 board: on a full board
    it returns [None], and on a board with a blank cell it returns a blank
    cell, whether or not a line is already complete. *)
Theorem get_move_on_finished_board fuel symbol b :
  is_3x3 b = true -> (20 <= fuel)%nat ->
  (is_full b = Ok (true, b) -> get_move fuel symbol b = Ok (None, b)) /\
  (is_full b = Ok (false, b) ->
   exists i j, get_move fuel symbol b = Ok (Some (i, j), b) /\
               get_cell i j b = Ok (" ", b)).
Proof.
  intros W Hf. rewrite is_full_spec. split; intros H; injection H as H.
  - apply Nat.eqb_eq in H. apply get_move_full; assumption.
  - apply Nat.eqb_neq in H.
    destruct (get_move_spec fuel symbol b W Hf H)
      as (i & j & z & Hm & _ & _ & Hc & _).
    exists i, j. split; assumption.
Qed.

Lemma get_move_on_finished_board_witness :
  (is_full x_won_early = Ok (true, x_won_early) ->
   get_move 20 "O" x_won_early = Ok (None, x_won_early)) /\
  (is_full x_won_early = Ok (false, x_won_early) ->
   exists i j, get_move 20 "O" x_won_early = Ok (Some (i, j), x_won_early) /\
               get_cell i j x_won_early = Ok (" ", x_won_early)).
Proof.
  apply (get_move_on_finished_board 20 "O" x_won_early).
  - reflexivity.
  - lia.
Defined.

(** C7.  On a 3x3 board [is_valid_move] returns, for all integers, whether
    both are in [0,3) and the cell is blank, and leaves the board as it
    was; outside [0,3) it returns [False] on any board, never indexing; and
    on any board, whenever it returns, the board is unchanged. *)
Theorem is_valid_move_spec row col b :
  (is_3x3 b = true ->
   exists v, is_valid_move row col b = Ok (v, b) /\
             (v = true <-> 0 <= row < 3 /\ 0 <= col < 3 /\
                           get_cell row col b = Ok (" ", b))) /\
  (~ (0 <= row < 3 /\ 0 <= col < 3) ->
   is_valid_move row col b = Ok (false, b)) /\
  (forall v b', is_valid_move row col b = Ok (v, b') -> b' = b).
Proof.
  split; [apply is_valid_move_3x3|].
  split; [apply is_valid_move_outside|].
  intros v b' H. exact (preserves_is_valid_move row col b v b' H).
Qed.

Lemma is_valid_move_spec_witness :
  (exists v, is_valid_move (-1) 7 x_in_centre = Ok (v, x_in_centre) /\
             (v = true <-> 0 <= -1 < 3 /\ 0 <= 7 < 3 /\
                           get_cell (-1) 7 x_in_centre
                           = Ok (" ", x_in_centre))) /\
  is_valid_move (-1) 7 x_in_centre = Ok (false, x_in_centre).
Proof.
  split.
  - apply (proj1 (is_valid_move_spec (-1) 7 x_in_centre)). reflexivity.
  - apply (proj1 (proj2 (is_valid_move_spec (-1) 7 x_in_centre))). lia.
Defined.

(** C8.  On a 3x3 board [make_move] returns.  Where [is_valid_move] holds
    it returns [True] and the board differs in the one cell, which holds
    the symbol; otherwise it returns [False] and the board is unchanged.
    Moving X to the centre of the new board and then O to the centre: the
    second call returns [False] and the centre still holds X. *)
Theorem make_move_spec :
  (forall row col symbol b,
      is_3x3 b = true ->
      exists v,
        is_valid_move row col b = Ok (v, b) /\
        (v = true ->
         exists b', make_move row col symbol b = Ok (true, b') /\
                    is_3x3 b' = true /\
                    get_cell row col b' = Ok (symbol, b') /\
                    forall i j c, 0 <= i < 3 -> 0 <= j < 3 ->
                                  (i, j) <> (row, col) ->
                                  get_cell i j b = Ok (c, b) ->
                                  get_cell i j b' = Ok (c, b')) /\
        (v = false -> make_move row col symbol b = Ok (false, b))) /\
  (make_move 1 1 "X" ;;;
   second <- make_move 1 1 "O" ;;
   centre <- get_cell 1 1 ;;
   ret (second, centre)) new_board = Ok ((false, "X"), x_in_centre).
Proof.
  split; [|reflexivity].
  intros row col symbol b W. apply make_move_3x3. exact W.
Qed.

Lemma make_move_spec_witness :
  exists v,
    is_valid_move 0 2 x_in_centre = Ok (v, x_in_centre) /\
    (v = true ->
     exists b', make_move 0 2 "O" x_in_centre = Ok (true, b') /\
                is_3x3 b' = true /\
                get_cell 0 2 b' = Ok ("O", b') /\
                forall i j c, 0 <= i < 3 -> 0 <= j < 3 ->
                              (i, j) <> (0, 2) ->
                              get_cell i j x_in_centre = Ok (c, x_in_centre) ->
                              get_cell i j b' = Ok (c, b')) /\
    (v = false -> make_move 0 2 "O" x_in_centre = Ok (false, x_in_centre)).
Proof.
  apply (proj1 make_move_spec 0 2 "O" x_in_centre). reflexivity.
Defined.

(** C10.  [make_move] accepts any string as the symbol: on a 3x3 board, for
    a blank cell in range, it returns [True] and the cell then holds the
    string; with the blank itself as the symbol the board is unchanged. *)
Theorem make_move_any_symbol row col s b :
  is_3x3 b = true -> 0 <= row < 3 -> 0 <= col < 3 ->
  get_cell row col b = Ok (" ", b) ->
  exists b', make_move row col s b = Ok (true, b') /\
             get_cell row col b' = Ok (s, b') /\
             (s = " " -> b' = b).
Proof.
  intros W Hrow Hcol Hc.
  destruct (make_move_3x3 row col s b W) as (v & Hv & Hyes & _).
  destruct (is_valid_move_3x3 row col b W) as (v' & Hv' & Hiff).
  rewrite Hv in Hv'. injection Hv' as <-.
  assert (v = true) by (apply Hiff; auto). subst v.
  destruct (Hyes eq_refl) as (b' & Hm & _ & Hget & _).
  exists b'. repeat split; auto.
  intros ->. unfold make_move in Hm. rewrite (bind_step _ _ _ _ _ Hv) in Hm.
  apply bind_ok in Hm as (u & b1 & Hs & Hr). injection Hr as <-.
  exact (set_cell_same _ _ _ _ _ _ _ Hc Hs).
Qed.

Lemma make_move_any_symbol_witness :
  exists b', make_move 2 0 " " x_in_centre = Ok (true, b') /\
             get_cell 2 0 b' = Ok (" ", b') /\
             (" " = " " -> b' = x_in_centre).
Proof.
  apply (make_move_any_symbol 2 0 " " x_in_centre).
  - reflexivity.
  - lia.
  - lia.
  - reflexivity.
Defined.

Lemma xo_cell c :
  ((c =? " ") || (c =? "X") || (c =? "O"))%string = true ->
  c = " " \/ c = "X" \/ c = "O".
Proof.
  intros H. apply orb_prop in H as [H|H]; [apply orb_prop in H as [H|H]|];
    apply String.eqb_eq in H; auto.
Qed.

(** C9.  On a 3x3 board [is_game_over] returns [(True, 'X')] when
    [check_winner] reports X, [(True, 'O')] when it reports O,
    [(True, 'Draw')] when it reports nobody and the board is full, and
    [(False, None)] when it reports nobody and the board is not full; with
    cells among blank, X and O these are all the cases.  [check_winner]
    reports X on the board whose top row is X, and nobody on the full board
    X O X / O X O / O X O, which is a draw. *)
Theorem is_game_over_outcome :
  (forall b,
      is_3x3 b = true ->
      exists w,
        check_winner b = Ok (w, b) /\
        (w = Some "X" -> is_game_over b = Ok ((true, Some "X"), b)) /\
        (w = Some "O" -> is_game_over b = Ok ((true, Some "O"), b)) /\
        (w = None -> is_full b = Ok (true, b) ->
         is_game_over b = Ok ((true, Some "Draw"), b)) /\
        (w = None -> is_full b = Ok (false, b) ->
         is_game_over b = Ok ((false, None), b)) /\
        (xo_cells b = true -> w = Some "X" \/ w = Some "O" \/ w = None)) /\
  check_winner x_top_row = Ok (Some "X", x_top_row) /\
  check_winner full_no_line = Ok (None, full_no_line) /\
  is_game_over full_no_line = Ok ((true, Some "Draw"), full_no_line).
Proof.
  split; [|repeat split; reflexivity].
  intros b W. destruct (returns_check_winner b W) as [w Hw].
  exists w. split; [exact Hw|]. unfold is_game_over.
  rewrite (bind_step _ _ _ _ _ Hw).
  split; [intros ->; reflexivity|].
  split; [intros ->; reflexivity|].
  split; [intros -> Hf; simpl; rewrite (bind_step _ _ _ _ _ Hf); reflexivity|].
  split; [intros -> Hf; simpl; rewrite (bind_step _ _ _ _ _ Hf); reflexivity|].
  intros Hxo. destruct w as [w|]; [|auto].
  grid9 W.
  pose proof (check_winner_lines c00 c01 c02 c10 c11 c12 c20 c21 c22 n) as E.
  cbv zeta in E. rewrite E in Hw. injection Hw as Hw.
  apply (first_line_some
           (lines_of c00 c01 c02 c10 c11 c12 c20 c21 c22)) in Hw.
  destruct Hw as (Hnb & x & y & Hin).
  unfold xo_cells in Hxo. simpl in Hxo.
  repeat match goal with
         | H : _ && _ = true |- _ => apply andb_prop in H as [? ?]
         end.
  assert (Hcell : w = " " \/ w = "X" \/ w = "O").
  { unfold lines_of in Hin. simpl in Hin.
    repeat match goal with
           | H : _ \/ _ |- _ => destruct H as [H|H]
           | H : (_, _, _) = (_, _, _) |- _ => injection H as -> _ _
           | H : False |- _ => contradiction
           end; apply xo_cell; assumption. }
  destruct Hcell as [-> | [-> | ->]]; [congruence|auto|auto].
Qed.

Lemma is_game_over_outcome_witness :
  exists w,
    check_winner x_won_early = Ok (w, x_won_early) /\
    (w = Some "X" ->
     is_game_over x_won_early = Ok ((true, Some "X"), x_won_early)) /\
    (w = Some "O" ->
     is_game_over x_won_early = Ok ((true, Some "O"), x_won_early)) /\
    (w = None -> is_full x_won_early = Ok (true, x_won_early) ->
     is_game_over x_won_early = Ok ((true, Some "Draw"), x_won_early)) /\
    (w = None -> is_full x_won_early = Ok (false, x_won_early) ->
     is_game_over x_won_early = Ok ((false, None), x_won_early)) /\
    (xo_cells x_won_early = true ->
     w = Some "X" \/ w = Some "O" \/ w = None).
Proof.
  apply (proj1 is_game_over_outcome x_won_early). reflexivity.
Defined.

(** C2.  From the board [play_game] resets, with an [AIPlayer] for X and an
    [AIPlayer] for O, each with a budget of at least twenty nested calls,
    and room for at least nine turns, the game returns the result 'Draw'
    (not 'X', not 'O') on the full board X X O / O O X / X O X. *)
Theorem self_play_is_a_draw fuel turns b :
  (20 <= fuel)%nat -> (9 <= turns)%nat ->
  play_game turns (AIPlayer fuel "X") (AIPlayer fuel "O") b
  = Ok (Some "Draw",
        mkBoard [["X"; "X"; "O"]; ["O"; "O"; "X"]; ["X"; "O"; "X"]] (size b)).
Proof.
  intros Hf Ht. unfold play_game.
  rewrite (bind_step reset _ b tt (to_board blank9 (size b)) eq_refl).
  apply (game_loop_to_board fuel (size b) (Some "Draw")
           (C9 MarkX MarkX MarkO MarkO MarkO MarkX MarkX MarkO MarkX)
           Hf 9%nat MarkX blank9 turns); [discriminate|exact Ht|].
  vm_compute. reflexivity.
Qed.

Lemma self_play_is_a_draw_witness :
  play_game 9 (AIPlayer 20 "X") (AIPlayer 20 "O") new_board
  = Ok (Some "Draw",
        mkBoard [["X"; "X"; "O"]; ["O"; "O"; "X"]; ["X"; "O"; "X"]] 3).
Proof.
  apply (self_play_is_a_draw 20 9 new_board); lia.
Defined.

(** * Further properties *)

(** ** Lines *)

Lemma first_line_complete lines w :
  first_line lines = Some w -> w <> " " /\ In (w, w, w) lines.
Proof.
  induction lines as [|[[a b] c] rest IH]; simpl; [discriminate|].
  destruct (line3 a b c) eqn:E.
  - intros H. injection H as <-.
    apply line3_true in E as (-> & -> & Hc). split; [exact Hc|].
    left. reflexivity.
  - intros H. destruct (IH H) as [Hw Hin]. split; [exact Hw|].
    right. exact Hin.
Qed.

Lemma first_line_none lines :
  first_line lines = None <->
  forall a b c, In (a, b, c) lines -> line3 a b c = false.
Proof.
  induction lines as [|[[a b] c] rest IH]; simpl.
  - split; [intros _ a b c []|reflexivity].
  - destruct (line3 a b c) eqn:E.
    + split; [discriminate|]. intros H.
      rewrite (H a b c (or_introl eq_refl)) in E. discriminate.
    + rewrite IH. split.
      * intros H x y z [Heq|Hin]; [injection Heq as <- <- <-; exact E|].
        apply H. exact Hin.
      * intros H x y z Hin. apply H. right. exact Hin.
Qed.

Lemma line3_same w : line3 w w w = negb (w =? " ")%string.
Proof. unfold line3. rewrite String.eqb_refl. reflexivity. Qed.

(** The coordinate lines of a 3x3 board are the value lines that
    [check_winner] runs through. *)
Lemma lines_of_coordinates c00 c01 c02 c10 c11 c12 c20 c21 c22 n w :
  let b := mkBoard [[c00; c01; c02]; [c10; c11; c12]; [c20; c21; c22]] n in
  In (w, w, w) (lines_of c00 c01 c02 c10 c11 c12 c20 c21 c22) <->
  exists l, In l winning_lines /\ line_holds b l w.
Proof.
  intros b. split.
  - intros Hin. unfold lines_of in Hin. simpl in Hin.
    destruct Hin as [H|[H|[H|[H|[H|[H|[H|[H|[]]]]]]]]];
      injection H as -> -> ->.
    + exists ((0, 0), (0, 1), (0, 2)). split; [simpl; tauto|].
      repeat split; reflexivity.
    + exists ((1, 0), (1, 1), (1, 2)). split; [simpl; tauto|].
      repeat split; reflexivity.
    + exists ((2, 0), (2, 1), (2, 2)). split; [simpl; tauto|].
      repeat split; reflexivity.
    + exists ((0, 0), (1, 0), (2, 0)). split; [simpl; tauto|].
      repeat split; reflexivity.
    + exists ((0, 1), (1, 1), (2, 1)). split; [simpl; tauto|].
      repeat split; reflexivity.
    + exists ((0, 2), (1, 2), (2, 2)). split; [simpl; tauto|].
      repeat split; reflexivity.
    + exists ((0, 0), (1, 1), (2, 2)). split; [simpl; tauto|].
      repeat split; reflexivity.
    + exists ((0, 2), (1, 1), (2, 0)). split; [simpl; tauto|].
      repeat split; reflexivity.
  - intros (l & Hin & Hl). unfold winning_lines in Hin. simpl in Hin.
    unfold lines_of.
    destruct Hin as [H|[H|[H|[H|[H|[H|[H|[H|[]]]]]]]]]; subst l;
      destruct Hl as (H1 & H2 & H3);
      injection H1 as <-; injection H2 as E2; injection H3 as E3;
      rewrite ?E2, ?E3; simpl; tauto.
Qed.

(** X1.  [check_winner] on a 3x3 board: a reported winner is not the blank
    and fills one of the eight lines; nobody is reported exactly when none
    of the eight lines holds three equal cells other than the blank. *)
Theorem check_winner_lines_complete b :
  is_3x3 b = true ->
  exists r,
    check_winner b = Ok (r, b) /\
    (forall w, r = Some w ->
       w <> " " /\ exists l, In l winning_lines /\ line_holds b l w) /\
    (r = None <->
     forall l w, In l winning_lines -> line_holds b l w -> w = " ").
Proof.
  intros W. grid9 W.
  pose proof (check_winner_lines c00 c01 c02 c10 c11 c12 c20 c21 c22 n) as E.
  cbv zeta in E.
  eexists. split; [exact E|]. split.
  - intros w Hw. apply first_line_complete in Hw as [Hnb Hin].
    split; [exact Hnb|].
    apply (lines_of_coordinates c00 c01 c02 c10 c11 c12 c20 c21 c22 n w).
    exact Hin.
  - split.
    + intros Hnone l w Hl Hh.
      assert (Hin : In (w, w, w)
                       (lines_of c00 c01 c02 c10 c11 c12 c20 c21 c22)).
      { apply (lines_of_coordinates c00 c01 c02 c10 c11 c12 c20 c21 c22 n w).
        exists l. split; assumption. }
      rewrite first_line_none in Hnone. specialize (Hnone w w w Hin).
      rewrite line3_same in Hnone. apply negb_false_iff in Hnone.
      apply String.eqb_eq in Hnone. exact Hnone.
    + intros Hall.
      destruct (first_line (lines_of c00 c01 c02 c10 c11 c12 c20 c21 c22))
        as [w|] eqn:Ef; [|reflexivity].
      apply first_line_complete in Ef as [Hnb Hin].
      apply (lines_of_coordinates c00 c01 c02 c10 c11 c12 c20 c21 c22 n w)
        in Hin.
      destruct Hin as (l & Hl & Hh). elim Hnb. exact (Hall l w Hl Hh).
Qed.

Lemma check_winner_lines_complete_witness :
  exists r,
    check_winner full_no_line = Ok (r, full_no_line) /\
    (forall w, r = Some w ->
       w <> " " /\
       exists l, In l winning_lines /\ line_holds full_no_line l w) /\
    (r = None <->
     forall l w, In l winning_lines -> line_holds full_no_line l w ->
                 w = " ").
Proof.
  apply (check_winner_lines_complete full_no_line). reflexivity.
Defined.

(** ** Placing and filling *)

Lemma no_blank_when_full b i j :
  is_3x3 b = true -> empties b = 0%nat -> 0 <= i < 3 -> 0 <= j < 3 ->
  get_cell i j b <> Ok (" ", b).
Proof.
  intros W He Hi Hj Hc. grid9 W. unfold empties in He. simpl in He.
  in_range3 i j; injection Hc as ->; simpl in He; lia.
Qed.

(** X2.  [make_move] with any integers and any string on a 3x3 board
    returns, keeps the board 3x3 and keeps every cell that is not blank;
    a refused move leaves the board as it is, and an accepted move with a
    symbol other than the blank leaves one blank cell fewer. *)
Theorem make_move_keeps_occupied row col symbol b :
  is_3x3 b = true ->
  exists r b',
    make_move row col symbol b = Ok (r, b') /\
    is_3x3 b' = true /\
    (forall i j c, 0 <= i < 3 -> 0 <= j < 3 ->
       get_cell i j b = Ok (c, b) -> c <> " " ->
       get_cell i j b' = Ok (c, b')) /\
    (r = false -> b' = b) /\
    (r = true -> symbol <> " " -> (empties b' + 1 = empties b)%nat).
Proof.
  intros W. destruct (is_valid_move_3x3 row col b W) as (v & Hv & Hiff).
  unfold make_move. rewrite (bind_step _ _ _ _ _ Hv). destruct v.
  - destruct Hiff as [Hiff _]. destruct (Hiff eq_refl) as (Hrow & Hcol & Hc).
    destruct (set_cell_3x3 row col symbol b W Hrow Hcol)
      as (b' & Hs & W' & _ & Hother & Hcount).
    rewrite (bind_step _ _ _ _ _ Hs).
    exists true, b'. split; [reflexivity|]. split; [exact W'|].
    split; [|split; [discriminate|]].
    + intros i j c Hi Hj Hcell Hnb. apply Hother; try assumption.
      intros Heq. injection Heq as -> ->. rewrite Hc in Hcell.
      injection Hcell as <-. congruence.
    + intros _ Hsym. specialize (Hcount Hc).
      apply String.eqb_neq in Hsym. rewrite Hsym in Hcount.
      simpl in Hcount. lia.
  - exists false, b. split; [reflexivity|]. split; [exact W|].
    split; [auto|]. split; [reflexivity|discriminate].
Qed.

Lemma make_move_keeps_occupied_witness :
  exists r b',
    make_move 1 1 "O" x_in_centre = Ok (r, b') /\
    is_3x3 b' = true /\
    (forall i j c, 0 <= i < 3 -> 0 <= j < 3 ->
       get_cell i j x_in_centre = Ok (c, x_in_centre) -> c <> " " ->
       get_cell i j b' = Ok (c, b')) /\
    (r = false -> b' = x_in_centre) /\
    (r = true -> "O" <> " " -> (empties b' + 1 = empties x_in_centre)%nat).
Proof.
  apply (make_move_keeps_occupied 1 1 "O" x_in_centre). reflexivity.
Defined.

(** X3.  On a 3x3 board [is_full] returns [True] exactly when
    [is_valid_move] returns [False] for every pair of integers. *)
Theorem is_full_iff_no_valid_move b :
  is_3x3 b = true ->
  exists f,
    is_full b = Ok (f, b) /\
    (f = true <-> forall row col, is_valid_move row col b = Ok (false, b)).
Proof.
  intros W. exists (Nat.eqb (empties b) 0).
  split; [apply is_full_spec|]. rewrite Nat.eqb_eq. split.
  - intros He row col.
    destruct (is_valid_move_3x3 row col b W) as (v & Hv & Hiff).
    destruct v; [|exact Hv].
    destruct Hiff as [Hiff _]. destruct (Hiff eq_refl) as (Hr & Hc & Hcell).
    elim (no_blank_when_full b row col W He Hr Hc Hcell).
  - intros Hall.
    destruct (Nat.eq_dec (empties b) 0) as [He|He]; [exact He|].
    destruct (blank_cell b W He) as (k & i & j & Hk & Hc).
    destruct (cells_nth _ _ _ Hk) as (_ & Hi & Hj & _).
    destruct (is_valid_move_3x3 i j b W) as (v & Hv & Hiff).
    rewrite (Hall i j) in Hv. injection Hv as <-.
    destruct Hiff as [_ Hiff].
    assert (false = true) by (apply Hiff; auto). discriminate.
Qed.

Lemma is_full_iff_no_valid_move_witness :
  exists f,
    is_full full_no_line = Ok (f, full_no_line) /\
    (f = true <->
     forall row col, is_valid_move row col full_no_line
                     = Ok (false, full_no_line)).
Proof.
  apply (is_full_iff_no_valid_move full_no_line). reflexivity.
Defined.

(** X4.  A turn of an [AIPlayer] on a 3x3 board: while a blank cell is
    left the turn succeeds and the board differs by the player's symbol in
    one cell that was blank; on a full board [get_move] hands back [None]
    and unpacking it raises TypeError. *)
Theorem play_turn_ai fuel symbol b :
  is_3x3 b = true -> (20 <= fuel)%nat ->
  (is_full b = Ok (true, b) ->
   play_turn (AIPlayer fuel symbol) b = Raise TypeError) /\
  (is_full b = Ok (false, b) ->
   exists i j b',
     play_turn (AIPlayer fuel symbol) b = Ok (true, b') /\
     0 <= i < 3 /\ 0 <= j < 3 /\
     get_cell i j b = Ok (" ", b) /\
     set_cell i j symbol b = Ok (tt, b') /\ is_3x3 b' = true).
Proof.
  intros W Hf. unfold play_turn, AIPlayer. cbn [p_get_move p_symbol].
  rewrite is_full_spec. split; intros H; injection H as H.
  - apply Nat.eqb_eq in H.
    rewrite (bind_step _ _ _ _ _ (get_move_full fuel symbol b W H)).
    reflexivity.
  - apply Nat.eqb_neq in H.
    destruct (get_move_spec fuel symbol b W Hf H)
      as (i & j & z & Hm & Hi & Hj & Hc & _).
    rewrite (bind_step _ _ _ _ _ Hm).
    destruct (make_move_3x3 i j symbol b W) as (v & Hv & Hyes & _).
    destruct (is_valid_move_3x3 i j b W) as (v' & Hv' & Hiff).
    rewrite Hv in Hv'. injection Hv' as <-.
    assert (v = true) by (apply Hiff; auto). subst v.
    destruct (Hyes eq_refl) as (b' & Hmk & W' & _).
    exists i, j, b'. repeat split; try assumption; try lia.
    unfold make_move in Hmk. rewrite (bind_step _ _ _ _ _ Hv) in Hmk.
    apply bind_ok in Hmk as ([] & b1 & Hs & Hr). injection Hr as <-.
    exact Hs.
Qed.

Lemma play_turn_ai_witness :
  (is_full full_no_line = Ok (true, full_no_line) ->
   play_turn (AIPlayer 20 "O") full_no_line = Raise TypeError) /\
  (is_full full_no_line = Ok (false, full_no_line) ->
   exists i j b',
     play_turn (AIPlayer 20 "O") full_no_line = Ok (true, b') /\
     0 <= i < 3 /\ 0 <= j < 3 /\
     get_cell i j full_no_line = Ok (" ", full_no_line) /\
     set_cell i j "O" full_no_line = Ok (tt, b') /\ is_3x3 b' = true).
Proof.
  apply (play_turn_ai 20 "O" full_no_line).
  - reflexivity.
  - lia.
Defined.

(** ** How low and how high a score can be *)

Lemma blank_means_not_full b i j :
  is_3x3 b = true -> 0 <= i < 3 -> 0 <= j < 3 ->
  get_cell i j b = Ok (" ", b) -> empties b <> 0%nat.
Proof.
  intros W Hi Hj Hc He. exact (no_blank_when_full b i j W He Hi Hj Hc).
Qed.

(** The counterpart of the upper bound: a score is at least
    [depth - 10], and above it unless a winner other than [symbol] is
    reported on the board itself. *)
Lemma minimax_lower fuel symbol :
  forall depth is_max b,
    is_3x3 b = true -> (search_budget is_max b < fuel)%nat ->
    exists z,
      _minimax fuel symbol depth is_max b = Ok (Int z, b) /\
      (symbol <> " " -> 0 <= depth -> depth + Z.of_nat (empties b) <= 9 ->
       depth - 10 <= z /\
       (forall w, check_winner b = Ok (w, b) ->
                  foreign_winner symbol w = false -> depth - 10 < z)).
Proof.
  induction fuel as [|fuel IH]; intros depth is_max b W Hf; [lia|].
  cbn [_minimax].
  destruct (returns_check_winner b W) as [w Hw].
  rewrite (bind_step _ _ _ _ _ Hw).
  destruct (is_symbol w symbol) eqn:Es.
  { eexists. split; [reflexivity|]. intros _ Hd He. split; lia. }
  destruct (truthy w) eqn:Et.
  { eexists. split; [reflexivity|]. intros _ Hd He. split; [lia|].
    intros w' Hw'. rewrite Hw in Hw'. injection Hw' as <-.
    unfold foreign_winner. rewrite Es, Et. discriminate. }
  rewrite (bind_step _ _ _ _ _ (is_full_spec b)).
  destruct (Nat.eqb (empties b) 0) eqn:Ee.
  { eexists. split; [reflexivity|]. intros _ Hd He. split; lia. }
  apply Nat.eqb_neq in Ee.
  set (P := fun z : Z =>
              symbol <> " " -> 0 <= depth ->
              depth + Z.of_nat (empties b) <= 9 -> (depth + 1) - 10 <= z).
  assert (Hend : forall z, P z ->
            symbol <> " " -> 0 <= depth ->
            depth + Z.of_nat (empties b) <= 9 ->
            depth - 10 <= z /\
            (forall w, check_winner b = Ok (w, b) ->
                       foreign_winner symbol w = false -> depth - 10 < z)).
  { intros z Pz Hs Hd He. specialize (Pz Hs Hd He). split; [lia|].
    intros; lia. }
  destruct is_max.
  - destruct (scan_returns py_max NegInf symbol
                (_minimax fuel symbol (depth + 1) false) P b W Ee
                py_max_init py_max_pick) as (z & Hz & Pz).
    + intros i j b1 Hi Hj Hc Hs W1.
      destruct (set_cell_3x3 i j symbol b W Hi Hj)
        as (b1' & Hs' & _ & _ & _ & Hcount).
      rewrite Hs in Hs'. injection Hs' as <-. specialize (Hcount Hc).
      destruct (IH (depth + 1) false b1 W1) as (z & Hz & Hb).
      { unfold search_budget in *.
        destruct (symbol =? " ")%string; simpl in Hcount; lia. }
      exists z. split; [exact Hz|].
      intros Hsym Hd He.
      apply String.eqb_neq in Hsym as Hsym'. rewrite Hsym' in Hcount.
      simpl in Hcount. apply Hb; [exact Hsym|lia|lia].
    + exists z. split; [exact Hz|]. apply Hend. exact Pz.
  - destruct (scan_returns py_min PosInf (opponent_of symbol)
                (_minimax fuel symbol (depth + 1) true) P b W Ee
                py_min_init py_min_pick) as (z & Hz & Pz).
    + intros i j b1 Hi Hj Hc Hs W1.
      destruct (set_cell_3x3 i j (opponent_of symbol) b W Hi Hj)
        as (b1' & Hs' & _ & _ & _ & Hcount).
      rewrite Hs in Hs'. injection Hs' as <-. specialize (Hcount Hc).
      rewrite opponent_not_blank in Hcount. simpl in Hcount.
      destruct (IH (depth + 1) true b1 W1) as (z & Hz & Hb).
      { unfold search_budget in *. lia. }
      exists z. split; [exact Hz|].
      intros Hsym Hd He. apply Hb; [exact Hsym|lia|lia].
    + exists z. split; [exact Hz|]. apply Hend. exact Pz.
Qed.

(** The board after a first move, with what is known about its size. *)
Lemma after_first_move symbol b i j :
  is_3x3 b = true -> symbol <> " " -> 0 <= i < 3 -> 0 <= j < 3 ->
  get_cell i j b = Ok (" ", b) ->
  exists b1, set_cell i j symbol b = Ok (tt, b1) /\ is_3x3 b1 = true /\
             (empties b1 + 1 = empties b)%nat /\ (empties b1 <= 8)%nat.
Proof.
  intros W Hsym Hi Hj Hc.
  destruct (set_cell_3x3 i j symbol b W Hi Hj)
    as (b1 & Hs & W1 & _ & _ & Hcount).
  specialize (Hcount Hc). apply String.eqb_neq in Hsym.
  rewrite Hsym in Hcount. simpl in Hcount.
  pose proof (empties_le_9 b W).
  exists b1. repeat split; try assumption; lia.
Qed.

Lemma move_score_bounds fuel symbol b i j :
  is_3x3 b = true -> (20 <= fuel)%nat -> symbol <> " " ->
  0 <= i < 3 -> 0 <= j < 3 -> get_cell i j b = Ok (" ", b) ->
  exists z b1 w,
    move_scores fuel symbol b i j z /\
    set_cell i j symbol b = Ok (tt, b1) /\
    check_winner b1 = Ok (w, b1) /\
    -10 <= z <= 10 /\
    (z = 10 <-> w = Some symbol) /\
    (z = -10 <-> foreign_winner symbol w = true).
Proof.
  intros W Hf Hsym Hi Hj Hc.
  destruct (after_first_move symbol b i j W Hsym Hi Hj Hc)
    as (b1 & Hs & W1 & Hcount & He8).
  destruct (returns_check_winner b1 W1) as [w Hw].
  destruct (minimax_returns fuel symbol 0 false b1 W1)
    as (z & Hz & Hup); [unfold search_budget; lia|].
  destruct (minimax_lower fuel symbol 0 false b1 W1)
    as (z' & Hz' & Hlow); [unfold search_budget; lia|].
  rewrite Hz in Hz'. injection Hz' as <-.
  destruct (Hup Hsym) as [Hle Hlt]; [lia|lia|].
  destruct (Hlow Hsym) as [Hge Hgt]; [lia|lia|].
  exists z, b1, w. split.
  { exists b1. rewrite (bind_step _ _ _ _ _ Hs). exact Hz. }
  split; [exact Hs|]. split; [exact Hw|]. split; [lia|].
  destruct fuel as [|fuel]; [lia|]. cbn [_minimax] in Hz.
  rewrite (bind_step _ _ _ _ _ Hw) in Hz.
  split; split.
  - intros ->. destruct (is_symbol w symbol) eqn:Es.
    + destruct w as [w|]; [|discriminate]. simpl in Es.
      apply String.eqb_eq in Es. subst w. reflexivity.
    + specialize (Hlt w Hw Es). lia.
  - intros ->. unfold is_symbol in Hz. rewrite String.eqb_refl in Hz.
    injection Hz as <-. reflexivity.
  - intros ->. destruct (foreign_winner symbol w) eqn:Ef; [reflexivity|].
    specialize (Hgt w Hw Ef). lia.
  - intros Ef. unfold foreign_winner in Ef.
    apply andb_prop in Ef as [Es Et]. apply negb_true_iff in Es.
    rewrite Es, Et in Hz. injection Hz as <-. reflexivity.
Qed.

(** X5.  The score [get_move] gives a move with a symbol other than the
    blank lies between -10 and 10; it is 10 exactly when the move makes
    [check_winner] report the symbol, and -10 exactly when a winner other
    than the symbol is reported right after the move. *)
Theorem move_score_range fuel symbol b i j :
  is_3x3 b = true -> (20 <= fuel)%nat -> symbol <> " " ->
  0 <= i < 3 -> 0 <= j < 3 -> get_cell i j b = Ok (" ", b) ->
  exists z b1 w,
    move_scores fuel symbol b i j z /\
    set_cell i j symbol b = Ok (tt, b1) /\
    check_winner b1 = Ok (w, b1) /\
    -10 <= z <= 10 /\
    (z = 10 <-> w = Some symbol) /\
    (z = -10 <-> foreign_winner symbol w = true).
Proof. apply move_score_bounds. Qed.

Lemma move_score_range_witness :
  exists z b1 w,
    move_scores 20 "X" two_in_a_row 0 2 z /\
    set_cell 0 2 "X" two_in_a_row = Ok (tt, b1) /\
    check_winner b1 = Ok (w, b1) /\
    -10 <= z <= 10 /\
    (z = 10 <-> w = Some "X") /\
    (z = -10 <-> foreign_winner "X" w = true).
Proof.
  apply (move_score_range 20 "X" two_in_a_row 0 2).
  - reflexivity.
  - lia.
  - discriminate.
  - lia.
  - lia.
  - reflexivity.
Defined.

(** ** Avoiding the loss in one reply *)

(** The minimising scan returns at most what any single reply scores. *)
Lemma min_scan_below v (m : M Score) b :
  is_3x3 b = true ->
  (forall i j b1, 0 <= i < 3 -> 0 <= j < 3 ->
     get_cell i j b = Ok (" ", b) -> set_cell i j v b = Ok (tt, b1) ->
     is_3x3 b1 = true -> exists z, m b1 = Ok (Int z, b1)) ->
  forall r b',
    for_each range3 (fun i best =>
      for_each range3 (fun j best =>
        c <- get_cell i j ;;
        if (c =? " ")%string then
          set_cell i j v ;;;
          x <- m ;;
          let best := py_min best x in
          set_cell i j " " ;;;
          ret best
        else ret best) best) PosInf b = Ok (r, b') ->
    forall k l b2 z',
      0 <= k < 3 -> 0 <= l < 3 ->
      get_cell k l b = Ok (" ", b) -> set_cell k l v b = Ok (tt, b2) ->
      m b2 = Ok (Int z', b2) ->
      exists z, r = Int z /\ z <= z'.
Proof.
  intros W Hm r b' Hrun k l b2 z' Hk Hl Hck Hsk Hmk.
  rewrite for_each_nested in Hrun.
  change (list_prod range3 range3) with cells in Hrun.
  match type of Hrun with
  | for_each cells ?body _ b = _ =>
    destruct (for_each_inv cells body b
      (fun n acc =>
         (acc = PosInf \/ exists z, acc = Int z) /\
         forall k' i j b1 z1, (k' < n)%nat ->
           nth_error cells k' = Some (i, j) ->
           get_cell i j b = Ok (" ", b) ->
           set_cell i j v b = Ok (tt, b1) ->
           m b1 = Ok (Int z1, b1) ->
           exists z, acc = Int z /\ z <= z1) PosInf) as (acc & E & HI)
  end.
  - split; [left; reflexivity|]. intros; lia.
  - intros n [i j] acc Hn [Hshape Hbelow]. cbn [fst snd].
    destruct (cells_nth _ _ _ Hn) as (_ & Hi & Hj & _).
    destruct (get_cell_3x3 i j b W Hi Hj) as [c Hc].
    destruct (c =? " ")%string eqn:Ec.
    + apply String.eqb_eq in Ec. subst c.
      destruct (set_cell_3x3 i j v b W Hi Hj) as (b1 & Hs & W1 & _).
      destruct (Hm i j b1 Hi Hj Hc Hs W1) as (z0 & Hz0).
      rewrite (try_blank i j v m (fun x => ret (py_min acc x)) (ret acc)
                 b b1 (Int z0) Hc Hs W1 Hi Hj Hz0).
      eexists. split; [reflexivity|].
      assert (Hnew : exists z, py_min acc (Int z0) = Int z /\ z <= z0 /\
                               forall a, acc = Int a -> z <= a).
      { destruct Hshape as [-> | [a ->]].
        - exists z0. split; [reflexivity|]. split; [lia|]. discriminate.
        - unfold py_min. simpl. destruct (z0 <? a) eqn:Elt.
          + apply Z.ltb_lt in Elt. exists z0. split; [reflexivity|].
            split; [lia|]. intros a' Ha. injection Ha as <-. lia.
          + apply Z.ltb_ge in Elt. exists a. split; [reflexivity|].
            split; [lia|]. intros a' Ha. injection Ha as <-. lia. }
      destruct Hnew as (zn & Hzn & Hle0 & Hlea). rewrite Hzn.
      split; [right; eauto|].
      intros k' i' j' b1' z1 Hk' Hn' Hc' Hs' Hm'.
      exists zn. split; [reflexivity|].
      destruct (Nat.eq_dec k' n) as [-> | Hd].
      * rewrite Hn in Hn'. injection Hn' as <- <-.
        rewrite Hs in Hs'. injection Hs' as <-.
        rewrite Hz0 in Hm'. injection Hm' as <-. exact Hle0.
      * destruct (Hbelow k' i' j' b1' z1) as (a & Ha & Hle);
          try assumption; [lia|].
        specialize (Hlea a Ha). lia.
    + rewrite (try_filled i j v m (fun x => ret (py_min acc x)) (ret acc)
                 b c Hc Ec).
      eexists. split; [reflexivity|]. split; [exact Hshape|].
      intros k' i' j' b1' z1 Hk' Hn' Hc' Hs' Hm'.
      destruct (Nat.eq_dec k' n) as [-> | Hd].
      * rewrite Hn in Hn'. injection Hn' as <- <-.
        rewrite Hc in Hc'. injection Hc' as ->. discriminate.
      * apply (Hbelow k' i' j' b1' z1); try assumption. lia.
  - rewrite E in Hrun. injection Hrun as <- _.
    destruct HI as [_ Hbelow].
    apply (Hbelow (Z.to_nat (3 * k + l)) k l b2 z'); try assumption.
    + change (length cells) with 9%nat. lia.
    + apply cells_at; assumption.
Qed.

(** A move that is not exposed scores at least -8. *)
Lemma safe_move_score fuel symbol b i j z :
  is_3x3 b = true -> (20 <= fuel)%nat -> symbol <> " " ->
  0 <= i < 3 -> 0 <= j < 3 -> get_cell i j b = Ok (" ", b) ->
  ~ exposed symbol b i j ->
  move_scores fuel symbol b i j z -> -8 <= z.
Proof.
  intros W Hf Hsym Hi Hj Hc Hsafe [b1' Hz].
  destruct (after_first_move symbol b i j W Hsym Hi Hj Hc)
    as (b1 & Hs & W1 & Hcount & He8).
  rewrite (bind_step _ _ _ _ _ Hs) in Hz.
  destruct (returns_check_winner b1 W1) as [w1 Hw1].
  assert (Hgoal : exists z0, _minimax fuel symbol 0 false b1
                             = Ok (Int z0, b1) /\ -8 <= z0).
  { destruct fuel as [|fuel]; [lia|]. cbn [_minimax].
    rewrite (bind_step _ _ _ _ _ Hw1).
    destruct (is_symbol w1 symbol) eqn:Es.
    { eexists. split; [reflexivity|]. lia. }
    destruct (truthy w1) eqn:Et.
    { elim Hsafe. exists b1, w1. auto. }
    rewrite (bind_step _ _ _ _ _ (is_full_spec b1)).
    destruct (Nat.eqb (empties b1) 0) eqn:Ee.
    { eexists. split; [reflexivity|]. lia. }
    apply Nat.eqb_neq in Ee.
    apply (scan_returns py_min PosInf (opponent_of symbol)
             (_minimax fuel symbol (0 + 1) true) (fun z0 => -8 <= z0)
             b1 W1 Ee py_min_init py_min_pick).
    intros k l b2 Hk Hl Hck Hsk W2.
    destruct (set_cell_3x3 k l (opponent_of symbol) b1 W1 Hk Hl)
      as (b2' & Hsk' & _ & _ & _ & Hcount2).
    rewrite Hsk in Hsk'. injection Hsk' as <-. specialize (Hcount2 Hck).
    rewrite opponent_not_blank in Hcount2. simpl in Hcount2.
    destruct (minimax_lower fuel symbol (0 + 1) true b2 W2)
      as (z2 & Hz2 & Hlow); [unfold search_budget; lia|].
    exists z2. split; [exact Hz2|].
    destruct (Hlow Hsym) as [_ Hgt]; [lia|lia|].
    destruct (returns_check_winner b2 W2) as [w2 Hw2].
    destruct (foreign_winner symbol w2) eqn:Ef.
    - elim Hsafe. exists b1, w1. repeat split; try assumption.
      right. exists k, l, b2, w2. auto 10.
    - specialize (Hgt w2 Hw2 Ef). lia. }
  destruct Hgoal as (z0 & Hz0 & Hle). rewrite Hz0 in Hz.
  injection Hz as <- _. exact Hle.
Qed.

(** An exposed move scores at most -9. *)
Lemma exposed_move_score fuel symbol b i j z :
  is_3x3 b = true -> (20 <= fuel)%nat -> symbol <> " " ->
  0 <= i < 3 -> 0 <= j < 3 -> get_cell i j b = Ok (" ", b) ->
  exposed symbol b i j ->
  move_scores fuel symbol b i j z -> z <= -9.
Proof.
  intros W Hf Hsym Hi Hj Hc (b1 & w1 & Hs & Hw1 & Es & Hlost) [b1' Hz].
  destruct (after_first_move symbol b i j W Hsym Hi Hj Hc)
    as (b1'' & Hs' & W1 & Hcount & He8).
  rewrite Hs in Hs'. injection Hs' as <-.
  rewrite (bind_step _ _ _ _ _ Hs) in Hz.
  destruct fuel as [|fuel]; [lia|]. cbn [_minimax] in Hz.
  rewrite (bind_step _ _ _ _ _ Hw1) in Hz. rewrite Es in Hz.
  destruct (truthy w1) eqn:Et.
  { injection Hz as <- _. lia. }
  destruct Hlost as [Hl|(k & l & b2 & w2 & Hk & Hl & Hck & Hsk & Hw2 & Ef)];
    [discriminate|].
  rewrite (bind_step _ _ _ _ _ (is_full_spec b1)) in Hz.
  pose proof (blank_means_not_full b1 k l W1 Hk Hl Hck) as Ee.
  apply Nat.eqb_neq in Ee. rewrite Ee in Hz.
  assert (Hchild : _minimax fuel symbol (0 + 1) true b2
                   = Ok (Int (0 + 1 - 10), b2)).
  { destruct fuel as [|fuel]; [lia|]. cbn [_minimax].
    rewrite (bind_step _ _ _ _ _ Hw2).
    unfold foreign_winner in Ef. apply andb_prop in Ef as [Ef1 Ef2].
    apply negb_true_iff in Ef1. rewrite Ef1, Ef2. reflexivity. }
  destruct (min_scan_below (opponent_of symbol)
              (_minimax fuel symbol (0 + 1) true) b1 W1) 
    with (r := Int z) (b' := b1') (k := k) (l := l) (b2 := b2)
         (z' := 0 + 1 - 10) as (z0 & Hz0 & Hle); try assumption.
  - intros i' j' b3 Hi' Hj' Hc' Hs3 W3.
    destruct (set_cell_3x3 i' j' (opponent_of symbol) b1 W1 Hi' Hj')
      as (b3' & Hs3' & _ & _ & _ & Hcount3).
    rewrite Hs3 in Hs3'. injection Hs3' as <-. specialize (Hcount3 Hc').
    rewrite opponent_not_blank in Hcount3. simpl in Hcount3.
    destruct (minimax_returns fuel symbol (0 + 1) true b3 W3)
      as (z3 & Hz3 & _); [unfold search_budget; lia|].
    exists z3. exact Hz3.
  - injection Hz0 as <-. lia.
Qed.

(** X6.  When some blank cell can take a symbol other than the blank
    without exposing it (no winner other than the symbol is reported after
    the move or after any single reply of the opponent), [get_move]
    returns such a cell: it blocks the threat whenever one move can. *)
Theorem get_move_avoids_exposure fuel symbol b :
  is_3x3 b = true -> (20 <= fuel)%nat -> symbol <> " " ->
  (exists i j, 0 <= i < 3 /\ 0 <= j < 3 /\
               get_cell i j b = Ok (" ", b) /\ ~ exposed symbol b i j) ->
  exists i j,
    get_move fuel symbol b = Ok (Some (i, j), b) /\
    get_cell i j b = Ok (" ", b) /\ ~ exposed symbol b i j.
Proof.
  intros W Hf Hsym (si & sj & Hsi & Hsj & Hsc & Hsafe).
  pose proof (blank_means_not_full b si sj W Hsi Hsj Hsc) as Hne.
  destruct (get_move_spec fuel symbol b W Hf Hne)
    as (i & j & z & Hmove & Hi & Hj & Hc & Hsc' & Hbest).
  exists i, j. split; [exact Hmove|]. split; [exact Hc|].
  intros Hexp.
  pose proof (exposed_move_score fuel symbol b i j z W Hf Hsym Hi Hj Hc
                Hexp Hsc') as Hlow.
  destruct (Hbest si sj Hsi Hsj Hsc) as (zs & Hzs & Hle & _).
  pose proof (safe_move_score fuel symbol b si sj zs W Hf Hsym Hsi Hsj Hsc
                Hsafe Hzs).
  lia.
Qed.

Lemma get_move_avoids_exposure_witness :
  exists i j,
    get_move 20 "X" o_threatens = Ok (Some (i, j), o_threatens) /\
    get_cell i j o_threatens = Ok (" ", o_threatens) /\
    ~ exposed "X" o_threatens i j.
Proof.
  apply (get_move_avoids_exposure 20 "X" o_threatens).
  - reflexivity.
  - lia.
  - discriminate.
  - exists 0, 2. split; [lia|]. split; [lia|]. split; [reflexivity|].
    intros (b1 & w1 & Hs & Hw & _ & Hlost).
    injection Hs as <-. injection Hw as <-.
    destruct Hlost
      as [Ht|(k & l & b2 & w2 & Hk & Hl & Hc & Hs2 & Hw2 & Ef)];
      [discriminate|].
    in_range3 k l; try discriminate Hc;
      injection Hs2 as <-; injection Hw2 as <-; discriminate Ef.
Defined.

(** ** The call budget *)

(** X7.  On a 3x3 board the calls of [_minimax] never nest deeper than
    twice the number of blank cells plus one: with any larger allowance
    the search returns what it returns with exactly that much, and
    [get_move] returns with twenty what it returns with any more. *)
Theorem search_depth_bounded fuel symbol b :
  is_3x3 b = true ->
  (forall depth is_max,
      (search_budget is_max b < fuel)%nat ->
      _minimax fuel symbol depth is_max b
      = _minimax (S (search_budget is_max b)) symbol depth is_max b) /\
  ((20 <= fuel)%nat -> get_move fuel symbol b = get_move 20 symbol b).
Proof.
  intros W. split.
  - intros depth is_max Hf.
    destruct (minimax_returns (S (search_budget is_max b)) symbol depth
                is_max b W) as (z & Hz & _); [lia|].
    rewrite Hz.
    apply (minimax_fuel_mono symbol (S (search_budget is_max b)) fuel
             depth is_max); [lia|exact Hz].
  - intros Hf.
    assert (Hret : exists mv, get_move 20 symbol b = Ok (mv, b)).
    { destruct (Nat.eq_dec (empties b) 0) as [He|He].
      - exists None. apply get_move_full; assumption.
      - destruct (get_move_spec 20 symbol b W) as (i & j & z & H & _);
          [lia|exact He|].
        exists (Some (i, j)). exact H. }
    destruct Hret as [mv Hmv].
    rewrite (get_move_fuel_mono symbol 20 fuel Hf b _ Hmv).
    symmetry. exact Hmv.
Qed.

Lemma search_depth_bounded_witness :
  _minimax 30 "X" 0 true two_in_a_row
  = _minimax (S (search_budget true two_in_a_row)) "X" 0 true two_in_a_row.
Proof.
  apply (proj1 (search_depth_bounded 30 "X" two_in_a_row eq_refl)).
  vm_compute. lia.
Defined.

(** ** How a game ends *)

Lemma is_game_over_true b over b' :
  is_game_over b = Ok (over, b') -> fst over = true ->
  exists s, over = (true, Some s).
Proof.
  unfold is_game_over. intros H Hover.
  apply bind_ok in H as (w & b1 & _ & H).
  destruct (truthy w) eqn:Et.
  - injection H as <- _. destruct w as [s|]; [|discriminate].
    exists s. reflexivity.
  - apply bind_ok in H as (f & b2 & _ & H). destruct f.
    + injection H as <- _. exists "Draw". reflexivity.
    + injection H as <- _. discriminate.
Qed.

(** X8.  Whatever the two players and the board, when the controller's
    loop returns, its result is a string, never [None], and
    [is_game_over] holds of the board it leaves with that same result. *)
Theorem game_loop_result turns player1 player2 :
  forall first b r b',
    game_loop turns player1 player2 first b = Ok (r, b') ->
    exists s, r = Some s /\ is_game_over b' = Ok ((true, Some s), b').
Proof.
  induction turns as [|turns IH]; intros first b r b' H; [discriminate|].
  cbn [game_loop] in H.
  apply bind_ok in H as (moved & b1 & _ & H).
  destruct moved; [|exact (IH _ _ _ _ H)].
  apply bind_ok in H as (over & b2 & Hover & H).
  pose proof (preserves_is_game_over _ _ _ Hover). subst b2.
  destruct (fst over) eqn:Ef; [|exact (IH _ _ _ _ H)].
  injection H as <- <-.
  destruct (is_game_over_true _ _ _ Hover Ef) as [s ->].
  exists s. split; [reflexivity|exact Hover].
Qed.

Lemma game_loop_result_witness :
  exists s,
    Some "X" = Some s /\
    is_game_over x_won_early = Ok ((true, Some s), x_won_early).
Proof.
  apply (game_loop_result 1 (AIPlayer 20 "X") (AIPlayer 20 "O") true
           two_in_a_row (Some "X") x_won_early).
  vm_compute. reflexivity.
Defined.

(** ** The human player *)

Lemma human_get_move_returns typed :
  forall b mv b',
    human_get_move typed b = Ok (mv, b') ->
    b' = b /\
    exists pre row col post,
      typed = (pre ++ Coords row col :: post)%list /\
      mv = Some (row, col) /\
      is_valid_move row col b = Ok (true, b) /\
      forall t, In t pre ->
        t = Malformed \/
        exists r c, t = Coords r c /\ is_valid_move r c b <> Ok (true, b).
Proof.
  induction typed as [|t rest IH]; intros b mv b' H; [discriminate|].
  assert (Hrest : human_get_move rest b = Ok (mv, b') ->
                  (t = Malformed \/
                   exists r c, t = Coords r c /\
                               is_valid_move r c b <> Ok (true, b)) ->
                  b' = b /\
                  exists pre row col post,
                    t :: rest = (pre ++ Coords row col :: post)%list /\
                    mv = Some (row, col) /\
                    is_valid_move row col b = Ok (true, b) /\
                    forall t', In t' pre ->
                      t' = Malformed \/
                      exists r c, t' = Coords r c /\
                                  is_valid_move r c b <> Ok (true, b)).
  { intros Hr Ht.
    destruct (IH b mv b' Hr) as (-> & pre & row & col & post & -> & Hmv & Hv & Hpre).
    split; [reflexivity|].
    exists (t :: pre), row, col, post. split; [reflexivity|].
    split; [exact Hmv|]. split; [exact Hv|].
    intros t' [<-|Hin]; [exact Ht|exact (Hpre t' Hin)]. }
  destruct t as [|row col]; cbn [human_get_move] in H.
  - apply Hrest; [exact H|]. left. reflexivity.
  - destruct (is_valid_move row col b) as [[v b1]|e] eqn:Ev.
    + pose proof (preserves_is_valid_move row col b v b1 Ev). subst b1.
      destruct v.
      * injection H as <- <-. split; [reflexivity|].
        exists [], row, col, rest. split; [reflexivity|].
        split; [reflexivity|]. split; [exact Ev|]. intros t [].
      * apply Hrest; [exact H|]. right. exists row, col.
        split; [reflexivity|]. rewrite Ev. discriminate.
    + destruct e; try discriminate.
      apply Hrest; [exact H|]. right. exists row, col.
      split; [reflexivity|]. rewrite Ev. discriminate.
Qed.

Lemma human_get_move_total typed b :
  is_3x3 b = true ->
  (exists r c, In (Coords r c) typed /\
               is_valid_move r c b = Ok (true, b)) ->
  exists mv, human_get_move typed b = Ok (mv, b).
Proof.
  intros W. induction typed as [|t rest IH]; intros (r & c & Hin & Hv);
    [destruct Hin|].
  assert (Hrest : t <> Coords r c ->
                  exists mv, human_get_move rest b = Ok (mv, b)).
  { intros Hne. apply IH. exists r, c. split; [|exact Hv].
    destruct Hin as [Heq|Hin]; [congruence|exact Hin]. }
  destruct t as [|row col]; cbn [human_get_move].
  - apply Hrest. discriminate.
  - destruct (is_valid_move_3x3 row col b W) as (v & Hrc & _).
    rewrite Hrc. destruct v; [eexists; reflexivity|].
    apply Hrest. intros Heq. injection Heq as -> ->.
    rewrite Hv in Hrc. discriminate.
Qed.

(** X9.  Whenever [HumanPlayer.get_move] returns, on any board, it
    returns the first typed pair of integers that [is_valid_move] accepts,
    every line typed before it being malformed or refused, and the board
    is unchanged; on a 3x3 board it does return as soon as one typed pair
    is acceptable. *)
Theorem human_get_move_first_valid typed b :
  (forall mv b',
      human_get_move typed b = Ok (mv, b') ->
      b' = b /\
      exists pre row col post,
        typed = (pre ++ Coords row col :: post)%list /\
        mv = Some (row, col) /\
        is_valid_move row col b = Ok (true, b) /\
        forall t, In t pre ->
          t = Malformed \/
          exists r c, t = Coords r c /\
                      is_valid_move r c b <> Ok (true, b)) /\
  (is_3x3 b = true ->
   (exists r c, In (Coords r c) typed /\
                is_valid_move r c b = Ok (true, b)) ->
   exists mv, human_get_move typed b = Ok (mv, b)).
Proof.
  split; [apply human_get_move_returns|apply human_get_move_total].
Qed.

Lemma human_get_move_first_valid_witness :
  (x_in_centre = x_in_centre /\
   exists pre row col post,
     [Malformed; Coords 1 1; Coords 5 0; Coords 2 1; Coords 0 0]
     = (pre ++ Coords row col :: post)%list /\
     Some (2, 1) = Some (row, col) /\
     is_valid_move row col x_in_centre = Ok (true, x_in_centre) /\
     forall t, In t pre ->
       t = Malformed \/
       exists r c, t = Coords r c /\
                   is_valid_move r c x_in_centre <> Ok (true, x_in_centre)) /\
  exists mv,
    human_get_move [Malformed; Coords 1 1; Coords 5 0; Coords 2 1; Coords 0 0]
                   x_in_centre = Ok (mv, x_in_centre).
Proof.
  split.
  - apply (proj1 (human_get_move_first_valid
                    [Malformed; Coords 1 1; Coords 5 0; Coords 2 1;
                     Coords 0 0] x_in_centre) (Some (2, 1)) x_in_centre).
    reflexivity.
  - apply (proj2 (human_get_move_first_valid
                    [Malformed; Coords 1 1; Coords 5 0; Coords 2 1;
                     Coords 0 0] x_in_centre)).
    + reflexivity.
    + exists 2, 1. split; [simpl; tauto|reflexivity].
Defined.

Lemma human_returns_valid_moves symbol typed :
  returns_valid_moves (HumanPlayer symbol typed).
Proof.
  intros b mv b' H. unfold HumanPlayer in H. cbn [p_get_move] in H.
  destruct (human_get_move_returns _ _ _ _ H)
    as (-> & pre & row & col & post & _ & -> & Hv & _).
  split; [reflexivity|]. exists row, col. split; [reflexivity|exact Hv].
Qed.

(** ** The AI as second player *)

Lemma in_cells i j : 0 <= i < 3 -> 0 <= j < 3 -> In (i, j) cells.
Proof.
  intros Hi Hj. apply (nth_error_In cells (Z.to_nat (3 * i + j))).
  apply cells_at; assumption.
Qed.

Lemma valid_move_to_board p n i j :
  is_valid_move i j (to_board p n) = Ok (true, to_board p n) ->
  0 <= i < 3 /\ 0 <= j < 3 /\ is_blank (cell_at p i j) = true.
Proof.
  intros Hv.
  destruct (is_valid_move_3x3 i j (to_board p n) (to_board_3x3 p n))
    as (v & Hv' & Hiff).
  rewrite Hv in Hv'. injection Hv' as <-.
  destruct Hiff as [Hiff _]. destruct (Hiff eq_refl) as (Hi & Hj & Hc).
  split; [exact Hi|]. split; [exact Hj|].
  rewrite get_cell_to_board in Hc by assumption.
  injection Hc as Hc. rewrite <- cell_str_blank, Hc. reflexivity.
Qed.

(** What [x_cannot_win] computes holds of the controller's loop with any
    player for X that returns valid moves and an [AIPlayer] for O. *)
Lemma x_cannot_win_sound fuel h n :
  (20 <= fuel)%nat -> p_symbol h = "X" -> returns_valid_moves h ->
  forall k first p turns r bf,
    x_cannot_win k first p = true ->
    game_loop turns h (AIPlayer fuel "O") first (to_board p n)
    = Ok (r, bf) ->
    not_x r = true.
Proof.
  intros Hf Hsym Hvalid.
  induction k as [|k IH]; intros first p turns r bf Hx Hg; [discriminate|].
  destruct turns as [|turns]; [discriminate|].
  cbn [game_loop] in Hg. cbn [x_cannot_win] in Hx.
  assert (Hnext : forall p1,
            (let over := game_over_cells p1 in
             if fst over then not_x (snd over)
             else x_cannot_win k (negb first) p1) = true ->
            (over <- is_game_over ;;
             if fst over then ret (snd over)
             else game_loop turns h (AIPlayer fuel "O") (negb first))
              (to_board p1 n) = Ok (r, bf) ->
            not_x r = true).
  { intros p1 Hn Hrun. cbv zeta in Hn.
    rewrite (bind_step _ _ _ _ _ (is_game_over_to_board p1 n)) in Hrun.
    destruct (fst (game_over_cells p1)).
    - injection Hrun as <- _. exact Hn.
    - exact (IH _ _ _ _ _ Hn Hrun). }
  apply bind_ok in Hg as (moved & b1 & Hturn & Hg).
  destruct first.
  - unfold play_turn in Hturn.
    apply bind_ok in Hturn as (mv & b0 & Hmv & Hturn).
    destruct (Hvalid _ _ _ Hmv) as (-> & i & j & -> & Hv).
    destruct (valid_move_to_board p n i j Hv) as (Hi & Hj & Eb).
    rewrite Hsym in Hturn. change "X" with (cell_str MarkX) in Hturn.
    rewrite (make_move_to_board p n i j MarkX Hi Hj Eb) in Hturn.
    injection Hturn as <- <-.
    rewrite forallb_forall in Hx. specialize (Hx (i, j) (in_cells i j Hi Hj)).
    cbn [fst snd] in Hx. rewrite Eb in Hx.
    exact (Hnext _ Hx Hg).
  - destruct (get_move_cells 20 MarkO p) as [[i j]|] eqn:Emove;
      [|discriminate].
    destruct ((0 <=? i) && (i <? 3) && ((0 <=? j) && (j <? 3))
              && is_blank (cell_at p i j)) eqn:Eok; [|discriminate].
    apply andb_prop in Eok as [Er Eb].
    assert (Hr : 0 <= i < 3 /\ 0 <= j < 3).
    { repeat (apply andb_prop in Er as [Er ?]). lia. }
    destruct Hr as [Hi Hj].
    unfold play_turn, AIPlayer in Hturn. cbn [p_get_move p_symbol] in Hturn.
    assert (Hmove : get_move fuel "O" (to_board p n)
                    = Ok (Some (i, j), to_board p n)).
    { apply (get_move_fuel_mono "O" 20 fuel Hf).
      change "O" with (cell_str MarkO).
      rewrite get_move_to_board by lia. rewrite Emove. reflexivity. }
    rewrite (bind_step _ _ _ _ _ Hmove) in Hturn.
    change "O" with (cell_str MarkO) in Hturn.
    rewrite (make_move_to_board p n i j MarkO Hi Hj Eb) in Hturn.
    injection Hturn as <- <-.
    exact (Hnext _ Hx Hg).
Qed.

(** Every game from the empty board: X anywhere, O by [get_move_cells]. *)
Lemma x_cannot_win_from_start : x_cannot_win 9 true blank9 = true.
Proof. vm_compute. reflexivity. Qed.

(** X10.  The shipped pairing never loses: with any player for X whose
    [get_move] returns only moves [is_valid_move] accepts and leaves the
    board alone (as [HumanPlayer.get_move] does), and an [AIPlayer] for O
    with a budget of at least twenty nested calls, whenever [play_game]
    returns, from whatever board it is started on, the result is 'Draw'
    or 'O'. *)
Theorem ai_never_loses fuel turns h b r bf :
  (20 <= fuel)%nat -> p_symbol h = "X" -> returns_valid_moves h ->
  play_game turns h (AIPlayer fuel "O") b = Ok (r, bf) ->
  r = Some "Draw" \/ r = Some "O".
Proof.
  intros Hf Hsym Hvalid H. unfold play_game in H.
  rewrite (bind_step reset _ b tt (to_board blank9 (size b)) eq_refl) in H.
  pose proof (x_cannot_win_sound fuel h (size b) Hf Hsym Hvalid
                9%nat true blank9 turns r bf x_cannot_win_from_start H)
    as Hr.
  destruct r as [s|]; [|discriminate]. simpl in Hr.
  apply orb_prop in Hr as [Hr|Hr]; apply String.eqb_eq in Hr; subst s; auto.
Qed.

Lemma ai_never_loses_witness :
  Some "O" = Some "Draw" \/ Some "O" = Some "O".
Proof.
  apply (ai_never_loses 20 9 (HumanPlayer "X" types_every_cell) new_board
           (Some "O")
           (board_of [["X"; "X"; "O"]; ["X"; "O"; " "]; ["O"; " "; " "]])).
  - lia.
  - reflexivity.
  - apply human_returns_valid_moves.
  - vm_compute. reflexivity.
Defined.

(** ** Counting the games *)

Lemma dict_get_set_same d k v : dict_get (dict_set d k v) k = Some v.
Proof.
  induction d as [|[k' v'] rest IH]; simpl.
  - rewrite String.eqb_refl. reflexivity.
  - destruct (k' =? k)%string eqn:E; simpl.
    + rewrite String.eqb_refl. reflexivity.
    + rewrite E. exact IH.
Qed.

Lemma dict_get_set_other d k v k' :
  k <> k' -> dict_get (dict_set d k v) k' = dict_get d k'.
Proof.
  intros Hne. induction d as [|[k0 v0] rest IH]; simpl.
  - apply String.eqb_neq in Hne. rewrite Hne. reflexivity.
  - destruct (k0 =? k)%string eqn:E; simpl.
    + apply String.eqb_eq in E. subst k0.
      apply String.eqb_neq in Hne. rewrite Hne. reflexivity.
    + rewrite IH. reflexivity.
Qed.

Lemma increment_get d k v :
  dict_get d k = Some v ->
  exists d', increment d k = Some d' /\
             dict_get d' k = Some (v + 1) /\
             forall k', k <> k' -> dict_get d' k' = dict_get d k'.
Proof.
  intros H. unfold increment. rewrite H. eexists. split; [reflexivity|].
  split; [apply dict_get_set_same|].
  intros k' Hne. apply dict_get_set_other. exact Hne.
Qed.

(** X11.  [Statistics.update] on a dict with the four counters adds one
    to 'games' and one to the counter of the result when that is 'X', 'O'
    or 'Draw', and to no counter for any other result (such as [None]);
    every other key keeps its value.  So balanced counters stay balanced
    exactly under those three results.  Without a 'games' key it raises
    KeyError. *)
Theorem update_counts result d g x o dr :
  dict_get d "games" = Some g -> dict_get d "x_wins" = Some x ->
  dict_get d "o_wins" = Some o -> dict_get d "draws" = Some dr ->
  exists d',
    update result d = Some d' /\
    dict_get d' "games" = Some (g + 1) /\
    dict_get d' "x_wins" = Some (x + Z.b2z (is_symbol result "X")) /\
    dict_get d' "o_wins" = Some (o + Z.b2z (is_symbol result "O")) /\
    dict_get d' "draws" = Some (dr + Z.b2z (is_symbol result "Draw")) /\
    (forall k, k <> "games" -> k <> "x_wins" -> k <> "o_wins" ->
               k <> "draws" -> dict_get d' k = dict_get d k) /\
    (g = x + o + dr ->
     (balanced d' <->
      result = Some "X" \/ result = Some "O" \/ result = Some "Draw")).
Proof.
  intros Hg Hx Ho Hd. unfold update.
  destruct (increment_get d "games" g Hg) as (d1 & -> & Hg1 & Hk1).
  assert (Hx1 : dict_get d1 "x_wins" = Some x)
    by (rewrite Hk1; [exact Hx|discriminate]).
  assert (Ho1 : dict_get d1 "o_wins" = Some o)
    by (rewrite Hk1; [exact Ho|discriminate]).
  assert (Hd1 : dict_get d1 "draws" = Some dr)
    by (rewrite Hk1; [exact Hd|discriminate]).
  assert (Hres : forall s, is_symbol result s = true -> result = Some s).
  { intros s H. destruct result as [w|]; [|discriminate]. simpl in H.
    apply String.eqb_eq in H. subst w. reflexivity. }
  assert (Hbal : forall d' x' o' dr',
            dict_get d' "games" = Some (g + 1) ->
            dict_get d' "x_wins" = Some x' ->
            dict_get d' "o_wins" = Some o' ->
            dict_get d' "draws" = Some dr' ->
            (balanced d' <-> g + 1 = x' + o' + dr')).
  { intros d' x' o' dr' H1 H2 H3 H4. split.
    - intros (g0 & x0 & o0 & dr0 & E1 & E2 & E3 & E4 & E). congruence.
    - intros E. exists (g + 1), x', o', dr'. auto. }
  destruct (is_symbol result "X") eqn:EX.
  { apply Hres in EX. subst result.
    destruct (increment_get d1 "x_wins" x Hx1) as (d2 & -> & Hx2 & Hk2).
    exists d2. split; [reflexivity|].
    assert (H1 : dict_get d2 "games" = Some (g + 1))
      by (rewrite Hk2; [exact Hg1|discriminate]).
    assert (H3 : dict_get d2 "o_wins" = Some (o + 0))
      by (rewrite Hk2, Z.add_0_r; [exact Ho1|discriminate]).
    assert (H4 : dict_get d2 "draws" = Some (dr + 0))
      by (rewrite Hk2, Z.add_0_r; [exact Hd1|discriminate]).
    repeat split; try assumption.
    - intros k N1 N2 N3 N4. rewrite Hk2 by congruence.
      apply Hk1. congruence.
    - intros _. auto.
    - intros _. apply (Hbal d2 _ _ _ H1 Hx2 H3 H4). simpl. lia. }
  destruct (is_symbol result "O") eqn:EO.
  { apply Hres in EO. subst result.
    destruct (increment_get d1 "o_wins" o Ho1) as (d2 & -> & Ho2 & Hk2).
    exists d2. split; [reflexivity|].
    assert (H1 : dict_get d2 "games" = Some (g + 1))
      by (rewrite Hk2; [exact Hg1|discriminate]).
    assert (H2 : dict_get d2 "x_wins" = Some (x + 0))
      by (rewrite Hk2, Z.add_0_r; [exact Hx1|discriminate]).
    assert (H4 : dict_get d2 "draws" = Some (dr + 0))
      by (rewrite Hk2, Z.add_0_r; [exact Hd1|discriminate]).
    repeat split; try assumption.
    - intros k N1 N2 N3 N4. rewrite Hk2 by congruence.
      apply Hk1. congruence.
    - intros _. auto.
    - intros _. apply (Hbal d2 _ _ _ H1 H2 Ho2 H4). simpl. lia. }
  destruct (is_symbol result "Draw") eqn:ED.
  { apply Hres in ED. subst result.
    destruct (increment_get d1 "draws" dr Hd1) as (d2 & -> & Hd2 & Hk2).
    exists d2. split; [reflexivity|].
    assert (H1 : dict_get d2 "games" = Some (g + 1))
      by (rewrite Hk2; [exact Hg1|discriminate]).
    assert (H2 : dict_get d2 "x_wins" = Some (x + 0))
      by (rewrite Hk2, Z.add_0_r; [exact Hx1|discriminate]).
    assert (H3 : dict_get d2 "o_wins" = Some (o + 0))
      by (rewrite Hk2, Z.add_0_r; [exact Ho1|discriminate]).
    repeat split; try assumption.
    - intros k N1 N2 N3 N4. rewrite Hk2 by congruence.
      apply Hk1. congruence.
    - intros _. auto.
    - intros _. apply (Hbal d2 _ _ _ H1 H2 H3 Hd2). simpl. lia. }
  exists d1. split; [reflexivity|]. simpl. rewrite !Z.add_0_r.
  repeat split; try assumption.
  - intros k N1 N2 N3 N4. apply Hk1. congruence.
  - intros Hb. apply (Hbal d1 _ _ _ Hg1 Hx1 Ho1 Hd1) in Hb. lia.
  - intros [-> | [-> | ->]]; simpl in *; discriminate.
Qed.

Lemma update_counts_witness :
  exists d',
    update (Some "O") default_stats = Some d' /\
    dict_get d' "games" = Some (0 + 1) /\
    dict_get d' "x_wins" = Some (0 + Z.b2z (is_symbol (Some "O") "X")) /\
    dict_get d' "o_wins" = Some (0 + Z.b2z (is_symbol (Some "O") "O")) /\
    dict_get d' "draws" = Some (0 + Z.b2z (is_symbol (Some "O") "Draw")) /\
    (forall k, k <> "games" -> k <> "x_wins" -> k <> "o_wins" ->
               k <> "draws" -> dict_get d' k = dict_get default_stats k) /\
    (0 = 0 + 0 + 0 ->
     (balanced d' <->
      Some "O" = Some "X" \/ Some "O" = Some "O" \/ Some "O" = Some "Draw")).
Proof.
  apply (update_counts (Some "O") default_stats 0 0 0 0); reflexivity.
Defined.

(** X12.  Without its 'games' key, or without the counter of the result,
    the dict makes [Statistics.update] raise KeyError. *)
Theorem update_key_error result d :
  (dict_get d "games" = None -> update result d = None) /\
  (forall g, dict_get d "games" = Some g ->
     (result = Some "X" -> dict_get d "x_wins" = None ->
      update result d = None) /\
     (result = Some "O" -> dict_get d "o_wins" = None ->
      update result d = None) /\
     (result = Some "Draw" -> dict_get d "draws" = None ->
      update result d = None)).
Proof.
  split.
  - intros H. unfold update, increment. rewrite H. reflexivity.
  - intros g Hg. unfold update.
    destruct (increment_get d "games" g Hg) as (d1 & -> & _ & Hk1).
    repeat split; intros -> H; simpl; unfold increment;
      rewrite Hk1 by discriminate; rewrite H; reflexivity.
Qed.

Lemma update_key_error_witness :
  update (Some "X") [("games", 4); ("o_wins", 1); ("draws", 3)] = None.
Proof.
  apply (proj1 (proj2 (update_key_error (Some "X")
                         [("games", 4); ("o_wins", 1); ("draws", 3)])
                      4 eq_refl)); reflexivity.
Defined.

(** ** The game comes to an end *)






(** ** Taking the win *)

(** X14.  When writing the symbol (neither the blank nor the empty
    string) into some blank cell of a 3x3 board completes a line, the turn
    of an [AIPlayer] with that symbol does so, and [is_game_over] then
    reports the game over with that symbol as the winner. *)
Theorem play_turn_takes_win fuel symbol b :
  is_3x3 b = true -> (20 <= fuel)%nat ->
  symbol <> " " -> symbol <> "" ->
  (exists i j b1, 0 <= i < 3 /\ 0 <= j < 3 /\
                  get_cell i j b = Ok (" ", b) /\
                  set_cell i j symbol b = Ok (tt, b1) /\
                  check_winner b1 = Ok (Some symbol, b1)) ->
  exists b',
    play_turn (AIPlayer fuel symbol) b = Ok (true, b') /\
    is_game_over b' = Ok ((true, Some symbol), b').
Proof.
  intros W Hf Hsym Hne (iw & jw & bw & Hiw & Hjw & Hcw & Hsw & Hww).
  pose proof (blank_means_not_full b iw jw W Hiw Hjw Hcw) as Hroom.
  destruct (get_move_spec fuel symbol b W Hf Hroom)
    as (i & j & z & Hmove & Hi & Hj & Hc & Hsc & Hbest).
  destruct (move_score_bounds fuel symbol b iw jw W Hf Hsym Hiw Hjw Hcw)
    as (zw & bw' & ww & Hscw & Hsw' & Hww' & _ & [_ Hten] & _).
  rewrite Hsw in Hsw'. injection Hsw' as <-.
  rewrite Hww in Hww'. injection Hww' as <-.
  specialize (Hten eq_refl). subst zw.
  destruct (Hbest iw jw Hiw Hjw Hcw) as (zw & Hscw' & Hle & _).
  rewrite (move_scores_fun _ _ _ _ _ _ _ Hscw' Hscw) in Hle.
  destruct (move_score_bounds fuel symbol b i j W Hf Hsym Hi Hj Hc)
    as (z' & b1 & w & Hsc' & Hs & Hw & Hrange & [Hwin _] & _).
  rewrite (move_scores_fun _ _ _ _ _ _ _ Hsc' Hsc) in *.
  assert (z = 10) by lia. specialize (Hwin H). subst w.
  exists b1. split.
  - unfold play_turn, AIPlayer. cbn [p_get_move p_symbol].
    rewrite (bind_step _ _ _ _ _ Hmove). unfold make_move.
    destruct (is_valid_move_3x3 i j b W) as (v & Hv & Hiff).
    assert (v = true) by (apply Hiff; auto). subst v.
    rewrite (bind_step _ _ _ _ _ Hv), (bind_step _ _ _ _ _ Hs).
    reflexivity.
  - unfold is_game_over. rewrite (bind_step _ _ _ _ _ Hw).
    unfold truthy. apply String.eqb_neq in Hne. rewrite Hne. reflexivity.
Qed.

Lemma play_turn_takes_win_witness :
  exists b',
    play_turn (AIPlayer 20 "X") two_in_a_row = Ok (true, b') /\
    is_game_over b' = Ok ((true, Some "X"), b').
Proof.
  apply (play_turn_takes_win 20 "X" two_in_a_row).
  - reflexivity.
  - lia.
  - discriminate.
  - discriminate.
  - exists 0, 2, x_won_early. repeat split; try lia; reflexivity.
Defined.
